(** * A shallow embedding of [tasks/vrptw.py] (VRPTW environment)

    Tensor values are modelled over the rationals [Q] (exact arithmetic
    standing for float arithmetic); the tour cost, which takes square
    roots, is modelled over [R].  A batched tensor of shape
    [(batch, seq_len)] is a [list (list Q)], one row per sample.
    Python and PyTorch exceptions are values of [exn], threaded through a
    small error monad. *)

From Stdlib Require Import List Bool Arith Lia ZArith QArith Qminmax.
From Stdlib Require Import Reals Rgeom Lra.
Import ListNotations.

(** ** Exceptions and the error monad *)

Inductive exn : Type :=
| ValueError
| TypeError
| RuntimeError
| IndexError
| ZeroDivisionError.

Inductive result (A : Type) : Type :=
| Ok : A -> result A
| Err : exn -> result A.

Arguments Ok {A} _.
Arguments Err {A} _.

Definition bind {A B : Type} (m : result A) (k : A -> result B) : result B :=
  match m with
  | Ok a => k a
  | Err e => Err e
  end.

Notation "'let*' x := m 'in' k" := (bind m (fun x => k))
  (at level 200, x name, m at level 100, k at level 200).

Fixpoint mapM {A B : Type} (f : A -> result B) (l : list A) : result (list B) :=
  match l with
  | [] => Ok []
  | x :: xs => let* y := f x in let* ys := mapM f xs in Ok (y :: ys)
  end.

(** ** List and tensor helpers *)

(** [t[i]] on a 1-d tensor: out of range is an [IndexError]. *)
Definition nth_err {A : Type} (l : list A) (i : nat) : result A :=
  match nth_error l i with
  | Some x => Ok x
  | None => Err IndexError
  end.

(** [t[i] = v] on a 1-d tensor: out of range is an [IndexError]. *)
Fixpoint set_nth {A : Type} (l : list A) (i : nat) (v : A) : result (list A) :=
  match l, i with
  | [], _ => Err IndexError
  | _ :: xs, O => Ok (v :: xs)
  | x :: xs, S i' => let* ys := set_nth xs i' v in Ok (x :: ys)
  end.

Fixpoint zip_with {A B C : Type} (f : A -> B -> C) (l1 : list A) (l2 : list B)
  : list C :=
  match l1, l2 with
  | x :: xs, y :: ys => f x y :: zip_with f xs ys
  | _, _ => []
  end.

(** Element-wise binary operation with PyTorch broadcasting along one
    dimension: equal sizes pair up, a size-1 side is repeated, anything
    else is a [RuntimeError]. *)
Definition bcast {A B C : Type} (f : A -> B -> result C) (xs : list A) (ys : list B)
  : result (list C) :=
  match xs, ys with
  | [x], _ => mapM (f x) ys
  | _, [y] => mapM (fun x => f x y) xs
  | _, _ =>
      if length xs =? length ys
      then mapM (fun '(x, y) => f x y) (combine xs ys)
      else Err RuntimeError
  end.

(** The same on 2-d tensors. *)
Definition bcast2 {A B C : Type} (f : A -> B -> result C)
  (m1 : list (list A)) (m2 : list (list B)) : result (list (list C)) :=
  bcast (bcast f) m1 m2.

(** [a < b] on tensors, as a boolean. *)
Definition Qlt_bool (a b : Q) : bool := negb (Qle_bool b a).

Definition Qsum (l : list Q) : Q := fold_right Qplus 0 l.

(** ** Dynamic state

    [dynamic] has shape [(batch, 3, seq_len)]: per sample the broadcast
    load, the per-node demand and the (broadcast) vehicle time. *)

Record sample : Type := mk_sample {
  loads : list Q;     (* dynamic[:, 0] *)
  demands : list Q;   (* dynamic[:, 1] *)
  vtime : list Q      (* dynamic[:, 2] *)
}.

(** ** [VRPTWDataset.update_mask] *)

(** [demands.eq(0).all()]: taken over the whole batch, depot slot included. *)
Definition batch_all_served (dyn : list sample) : bool :=
  forallb (fun s => forallb (fun d => Qeq_bool d 0) (demands s)) dyn.

(** [has_no_load + has_no_demand > 0] for one sample. *)
Definition depot_override (s : sample) : result bool :=
  let* l0 := nth_err (loads s) 0 in
  Ok (Qeq_bool l0 0 || Qeq_bool (Qsum (tl (demands s))) 0).

(** The row of [new_mask] for one sample, [c] being [chosen_idx] at that
    row when the row is covered by [chosen_idx]. *)
Definition mask_row (s : sample) (c : option nat) : result (list bool) :=
  (* new_mask = demands.ne(0) * demands.lt(loads) *)
  let row := zip_with (fun d l => negb (Qeq_bool d 0) && Qlt_bool d l)
               (demands s) (loads s) in
  (* new_mask[repeat_home, 0] = 1.; new_mask[1 - repeat_home, 0] = 0. *)
  let* row := match c with
              | Some c => set_nth row 0 (negb (c =? 0))
              | None => Ok row
              end in
  (* new_mask[combined, 0] = 1.; new_mask[combined, 1:] = 0. *)
  let* comb := depot_override s in
  if comb then Ok (true :: map (fun _ => false) (tl row)) else Ok row.

Definition update_mask (dyn : list sample) (chosen_idx : list nat)
  : result (list (list bool)) :=
  if batch_all_served dyn then
    (* return demands * 0. *)
    Ok (map (fun s => map (fun _ => false) (demands s)) dyn)
  else if length dyn <? length chosen_idx then
    (* a row index of repeat_home.nonzero() past the batch *)
    Err IndexError
  else
    mapM (fun '(i, s) => mask_row s (nth_error chosen_idx i))
      (combine (seq 0 (length dyn)) dyn).

(** ** [VRPTWDataset.update_time_mask]

    [static_end] is [self.static[:, -1]]: the end-time rows of the whole
    dataset, read at the batch positions. *)

Definition update_time_mask (static_end : list (list Q)) (dynamic : list sample)
  (chosen_idx : list nat) (time_matrix : list (list (list Q)))
  : result (list (list bool)) :=
  let vt := map vtime dynamic in
  let batch_size := length chosen_idx in
  (* chosen_time = time_matrix[range(batch_size), chosen_idx] *)
  let* chosen_time :=
    mapM (fun '(b, c) => let* m := nth_err time_matrix b in nth_err m c)
      (combine (seq 0 batch_size) chosen_idx) in
  (* new_time = chosen_time + vtime *)
  let* new_time := bcast2 (fun t v => Ok (t + v)) chosen_time vt in
  (* time_mask = endtime.ge(new_time) *)
  bcast2 (fun e t => Ok (Qle_bool t e)) static_end new_time.

(** ** [VRPTWDataset.update_dynamic] *)

(** [torch.clamp(x, min, max)]; with neither bound PyTorch raises
    "At least one of 'min' or 'max' must not be None". *)
Definition torch_clamp (lo hi : option Q) (m : list (list Q))
  : result (list (list Q)) :=
  match lo, hi with
  | None, None => Err RuntimeError
  | _, _ =>
      let lower x := match lo with Some a => Qmax a x | None => x end in
      let upper x := match hi with Some b => Qmin b x | None => x end in
      Ok (map (map (fun x => upper (lower x))) m)
  end.

(** A [(batch,)] vector as a [(batch, 1)] column. *)
Definition col (l : list Q) : list (list Q) := map (fun x => [x]) l.

(** [torch.gather(t, 1, idx.unsqueeze(1))], squeezed. *)
Definition gather (t : list (list Q)) (idx : list nat) : result (list Q) :=
  if length t <? length idx then Err RuntimeError
  else mapM (fun '(row, i) =>
               match nth_error row i with
               | Some x => Ok x
               | None => Err RuntimeError
               end) (combine t idx).

(** [time_matrix[range(batch_size), pre_chosen_idx, chosen_idx]]. *)
Definition rout_times (time_matrix : list (list (list Q)))
  (pre_chosen_idx chosen_idx : list nat) : result (list Q) :=
  if negb (length pre_chosen_idx =? length chosen_idx) then Err IndexError
  else mapM (fun '(b, (p, c)) =>
               let* m := nth_err time_matrix b in
               let* r := nth_err m p in
               nth_err r c)
         (combine (seq 0 (length chosen_idx)) (combine pre_chosen_idx chosen_idx)).

(** Python's [range(start, stop)] with a tensor [stop]: the tensor is
    converted through [__index__], which only a one-element integer
    tensor allows. *)
Definition py_range_tensor (start : nat) (stop : list nat) : result (list nat) :=
  match stop with
  | [c] => Ok (seq start (c - start))
  | _ => Err TypeError
  end.

(** [t[i] = f(t[i])] on the rows of a 2-d tensor. *)
Definition update_row (m : list (list Q)) (i : nat)
  (f : list Q -> result (list Q)) : result (list (list Q)) :=
  let* r := nth_err m i in
  let* r' := f r in
  set_nth m i r'.

Fixpoint foldM {A B : Type} (f : A -> B -> result A) (a : A) (l : list B)
  : result A :=
  match l with
  | [] => Ok a
  | x :: xs => let* a' := f a x in foldM f a' xs
  end.

(** The cloned [(all_loads, all_demands, all_vtime)]. *)
Definition dyn_arrays : Type := (list (list Q) * list (list Q) * list (list Q))%type.

(** Lines 172-190: the [if visit.any()] branch. *)
Definition visit_update (static_start : list (list Q)) (servicetime : Q)
  (chosen_idx pre_chosen_idx : list nat) (time_matrix : list (list (list Q)))
  (load demand vt : list Q) (st : dyn_arrays) : result dyn_arrays :=
  let batch_size := length chosen_idx in
  (* new_load = torch.clamp(load - demand, min=0) *)
  let* new_load := torch_clamp (Some 0) None (col (zip_with Qminus load demand)) in
  (* new_demand = torch.clamp(demand - load, min=0) *)
  let* new_demand := torch_clamp (Some 0) None (col (zip_with Qminus demand load)) in
  let* rout_time := rout_times time_matrix pre_chosen_idx chosen_idx in
  (* startime = self.static[:, -2][range(batch_size,chosen_idx)] *)
  let* rows := py_range_tensor batch_size chosen_idx in
  let* startime := mapM (nth_err static_start) rows in
  (* temp_vtime = torch.clamp(vtime + rout_time) *)
  let* temp_vtime := torch_clamp None None (col (zip_with Qplus vt rout_time)) in
  (* temp_vtime = torch.where(temp_vtime < startime, startime, temp_vtime) *)
  let* temp_vtime :=
    bcast2 (fun t s => Ok (if Qlt_bool t s then s else t)) temp_vtime startime in
  (* new_vtime = torch.clamp(temp_vtime + self.servicetime, max=1) *)
  let* new_vtime :=
    torch_clamp None (Some 1) (map (map (fun x => x + servicetime)) temp_vtime) in
  let visit_idx :=
    filter (fun i => negb (nth i chosen_idx O =? 0)) (seq 0 batch_size) in
  foldM (fun '(al, ad, av) i =>
           let* c := nth_err chosen_idx i in
           let* nl := nth_err new_load i in
           let* nl := nth_err nl 0 in
           let* nd := nth_err new_demand i in
           let* nd := nth_err nd 0 in
           let* nv := nth_err new_vtime i in
           (* all_loads[visit_idx] = new_load[visit_idx] *)
           let* al := update_row al i (fun r => Ok (map (fun _ => nl) r)) in
           (* all_demands[visit_idx, chosen_idx[visit_idx]] = new_demand[visit_idx] *)
           let* ad := update_row ad i (fun r => set_nth r c nd) in
           (* all_demands[visit_idx, 0] = -1. + new_load[visit_idx] *)
           let* ad := update_row ad i (fun r => set_nth r 0 (-1 + nl)) in
           (* all_vtime[visit_idx] = new_vtime[visit_idx] *)
           let* av := update_row av i (fun r => bcast (fun _ v => Ok v) r nv) in
           Ok (al, ad, av))
    st visit_idx.

(** Lines 193-196: the [if depot.any()] branch. *)
Definition depot_update (chosen_idx : list nat) (st : dyn_arrays) : result dyn_arrays :=
  let depot_idx :=
    filter (fun i => nth i chosen_idx O =? 0) (seq 0 (length chosen_idx)) in
  foldM (fun '(al, ad, av) i =>
           let* al := update_row al i (fun r => Ok (map (fun _ => 1) r)) in
           let* ad := update_row ad i (fun r => set_nth r 0 0) in
           let* av := update_row av i (fun r => Ok (map (fun _ => 0) r)) in
           Ok (al, ad, av))
    st depot_idx.

Fixpoint rebuild (al ad av : list (list Q)) : list sample :=
  match al, ad, av with
  | l :: al', d :: ad', v :: av' => mk_sample l d v :: rebuild al' ad' av'
  | _, _, _ => []
  end.

(** [static_start] is [self.static[:, -2]] of the whole dataset and
    [servicetime] is [self.servicetime]. *)
Definition update_dynamic (static_start : list (list Q)) (servicetime : Q)
  (dynamic : list sample) (chosen_idx pre_chosen_idx : list nat)
  (time_matrix : list (list (list Q))) : result (list sample) :=
  let visit := map (fun c => negb (c =? 0)) chosen_idx in
  let depot := map (fun c => c =? 0) chosen_idx in
  let all_loads := map loads dynamic in
  let all_demands := map demands dynamic in
  let all_vtime := map vtime dynamic in
  let* load := gather all_loads chosen_idx in
  let* demand := gather all_demands chosen_idx in
  let* vt := gather all_vtime chosen_idx in
  let* st :=
    if existsb (fun b => b) visit
    then visit_update static_start servicetime chosen_idx pre_chosen_idx
           time_matrix load demand vt (all_loads, all_demands, all_vtime)
    else Ok (all_loads, all_demands, all_vtime) in
  let* st := if existsb (fun b => b) depot then depot_update chosen_idx st else Ok st in
  let '(al, ad, av) := st in
  Ok (rebuild al ad av).

(** ** [VRPTWDataset.__init__]

    Only the steps that can raise are kept: the random draws are left out,
    since whether a PyTorch sampling call raises depends on its bounds and
    sizes, not on the values drawn.  [ServiceTime] and [V_speed] never make
    a step raise and are left out too.  The [seed] argument is kept: the
    seeding of lines 34-37 can raise. *)

Record params : Type := mk_params {
  num_samples : Z;
  input_size : Z;
  max_load : Z;
  max_demand : Z;
  min_TW : Z;
  max_TW : Z;
  TW_from : Z;
  TW_to : Z;
  seed : option Z     (* None for the default [seed=None] *)
}.

(** Lines 27-32: the configuration checks. *)
Definition validate (p : params) : result unit :=
  if (max_load p <? max_demand p)%Z then Err ValueError
  else if (max_TW p <? min_TW p)%Z then Err ValueError
  else if (TW_to p <? TW_from p)%Z then Err ValueError
  else Ok tt.

(** [x / d] on Python numbers. *)
Definition py_div (d : Z) : result unit :=
  if (d =? 0)%Z then Err ZeroDivisionError else Ok tt.

(** A tensor of the given shape can be allocated. *)
Definition torch_size (dims : list Z) : result unit :=
  if forallb (fun d => (0 <=? d)%Z) dims then Ok tt else Err RuntimeError.

(** [torch.randint(low, high, dims)] raises unless [low < high]. *)
Definition torch_randint (low high : Z) (dims : list Z) : result unit :=
  let* _ := torch_size dims in
  if (low <? high)%Z then Ok tt else Err RuntimeError.

(** Lines 34-83: everything after the checks. *)
Definition generate (p : params) : result unit :=
  let n1 := (input_size p + 1)%Z in
  (* self.servicetime = ServiceTime/(TW_to-TW_from) *)
  let* _ := py_div (TW_to p - TW_from p) in
  (* self.locations = torch.rand((num_samples, 2, input_size + 1)) *)
  let* _ := torch_size [num_samples p; 2%Z; n1] in
  (* tw_start = torch.randint(TW_from, TW_to-max_TW+1, ...) *)
  let* _ := torch_randint (TW_from p) (TW_to p - max_TW p + 1) [num_samples p; 1%Z; n1] in
  (* tw_span = torch.randint(min_TW, max_TW+1, ...) *)
  let* _ := torch_randint (min_TW p) (max_TW p + 1) [num_samples p; 1%Z; n1] in
  (* tw_start[:,0,0] = TW_from/TW_to-TW_from *)
  let* _ := py_div (TW_to p) in
  let* _ := if (0 <? n1)%Z then Ok tt else Err IndexError in
  (* tw_end[:,0,0] = TW_to/TW_to-TW_from *)
  let* _ := py_div (TW_to p) in
  (* print(... self.time_matrix[:,0,:].max() ... self.static[:,3].min()) *)
  let* _ := if (0 <? num_samples p * n1)%Z then Ok tt else Err RuntimeError in
  (* demands = torch.randint(1, max_demand + 1, dynamic_shape) *)
  let* _ := torch_randint 1 (max_demand p + 1) [num_samples p; 1%Z; n1] in
  Ok tt.

(** Lines 34-37.  Without a seed, [np.random.randint(1234567890)] draws one
    in [[0, 1234567889]], which both seeding calls accept.
    [np.random.seed] raises [ValueError] for a seed outside
    [[0, 2^32 - 1]]; [torch.manual_seed] accepts every seed in that range,
    so it never raises after [np.random.seed] has succeeded. *)
Definition seed_rng (seed : option Z) : result unit :=
  match seed with
  | None => Ok tt
  | Some s =>
      (* np.random.seed(seed) *)
      if ((0 <=? s) && (s <=? 2 ^ 32 - 1))%Z then
        (* torch.manual_seed(seed) *)
        Ok tt
      else Err ValueError
  end.

Definition VRPTWDataset_init (p : params) : result unit :=
  let* _ := validate p in
  let* _ := seed_rng (seed p) in
  generate p.

(** The three constraints of the configuration, one of them broken. *)
Definition config_violated (p : params) : bool :=
  ((max_load p <? max_demand p) || (max_TW p <? min_TW p) || (TW_to p <? TW_from p))%Z.

(** ** [reward]

    [static] of one sample is its list of feature rows (shape
    [(features, seq_len)]); a node's point is its column. *)

Definition point (static : list (list R)) (i : nat) : result (list R) :=
  mapM (fun row => match nth_error row i with
                   | Some x => Ok x
                   | None => Err RuntimeError
                   end) static.

(** [torch.sum(torch.pow(p - q, 2))] over the feature dimension. *)
Definition sq_dist (p q : list R) : R :=
  fold_right Rplus 0%R (zip_with (fun a b => ((a - b) ^ 2)%R) p q).

Definition reward_sample (static : list (list R)) (tour_indices : list nat)
  : result R :=
  (* tour = torch.gather(static.data, 2, idx).permute(0, 2, 1) *)
  let* tour := mapM (point static) tour_indices in
  (* start = static.data[:, :, 0].unsqueeze(1) *)
  let* start := point static 0 in
  (* y = torch.cat((start, tour, start), dim=1) *)
  let y := start :: tour ++ [start] in
  (* tour_len = torch.sqrt(torch.sum(torch.pow(y[:, :-1] - y[:, 1:], 2), dim=2)) *)
  let tour_len := zip_with (fun p q => sqrt (sq_dist p q)) (removelast y) (tl y) in
  (* tour_len.sum(1) *)
  Ok (fold_right Rplus 0%R tour_len).

Definition reward (static : list (list (list R))) (tour_indices : list (list nat))
  : result (list R) :=
  if negb (length static =? length tour_indices) then Err RuntimeError
  else mapM (fun '(s, t) => reward_sample s t) (combine static tour_indices).

(** The spec's tour cost (section 4.4), for comparison with [reward]:
    the 2D Euclidean length of the tour with the depot concatenated at
    both ends, over coordinates [xs], [ys]. *)
Definition node2 (xs ys : list R) (i : nat) : R * R := (nth i xs 0%R, nth i ys 0%R).

Definition dist2 (p q : R * R) : R :=
  sqrt ((fst p - fst q) ^ 2 + (snd p - snd q) ^ 2)%R.

Fixpoint path_length (ps : list (R * R)) : R :=
  match ps with
  | p :: ((q :: _) as rest) => (dist2 p q + path_length rest)%R
  | _ => 0%R
  end.

Definition tour_length_2d (xs ys : list R) (tour : list nat) : R :=
  path_length (map (node2 xs ys) (0%nat :: tour ++ [0%nat])).

(** ** [VRPTWDataset.generate_time_matrix]

    For one sample with coordinates [xs = locations[0]] and
    [ys = locations[1]]: [x - x_] broadcasts [(1, N)] against [(N, 1)], so
    entry [i][j] is [sqrt((x_j - x_i)^2 + (y_j - y_i)^2) / v_speed]. *)
Definition time_matrix_sample (v_speed : R) (xs ys : list R) : list (list R) :=
  map (fun '(xi, yi) =>
         map (fun '(xj, yj) => (sqrt ((xj - xi) ^ 2 + (yj - yi) ^ 2) / v_speed)%R)
           (combine xs ys))
    (combine xs ys).

(** [locations] has shape [(num_samples, 2, N)]: two rows per sample. *)
Definition generate_time_matrix (v_speed : R) (locations : list (list (list R)))
  : list (list (list R)) :=
  map (fun loc => time_matrix_sample v_speed (nth 0 loc []) (nth 1 loc [])) locations.

(** Entry [[i][j]] of a matrix, [0] out of range. *)
Definition at2 (m : list (list R)) (i j : nat) : R := nth j (nth i m []) 0%R.

(** ** The initial dynamic state and time windows of [__init__]

    Both are written for one sample, from the integers drawn by
    [torch.randint]; [Q] division by 0 is 0 where a float tensor division
    would give [inf], so the lemmas below keep divisors nonzero. *)

(** Lines 70-83: [loads = 1], [vtime = 0], [demands = draws / max_load]
    with the depot slot set to 0. *)
Definition initial_sample (max_load : Z) (draws : list Z) : result sample :=
  let loads := map (fun _ => 1) draws in
  let vt := map (fun _ => 0) draws in
  let demands := map (fun r => inject_Z r / inject_Z max_load) draws in
  let* demands := set_nth demands 0 0 in
  Ok (mk_sample loads demands vt).

(** Lines 56-62, from the drawn [starts] ([randint(TW_from, TW_to-max_TW+1)])
    and [spans] ([randint(min_TW, max_TW+1)]); line 61 reads
    [TW_from/TW_to-TW_from], i.e. [(TW_from/TW_to) - TW_from]. *)
Definition time_windows (TW_from TW_to : Z) (starts spans : list Z)
  : result (list Q * list Q) :=
  let D := inject_Z (TW_to - TW_from) in
  let tw_end := zip_with (fun s sp => inject_Z (s + sp) / D) starts spans in
  let tw_start := map (fun s => inject_Z s / D) starts in
  let* _ := py_div TW_to in
  let* tw_start := set_nth tw_start 0 (inject_Z TW_from / inject_Z TW_to - inject_Z TW_from) in
  let* tw_end := set_nth tw_end 0 (inject_Z TW_to / inject_Z TW_to - inject_Z TW_from) in
  Ok (tw_start, tw_end).

(** Sum of [g] over consecutive pairs of a list (used to reason about
    [reward]). *)
Fixpoint consec_sum {A : Type} (g : A -> A -> R) (l : list A) : R :=
  match l with
  | a :: ((b :: _) as rest) => (g a b + consec_sum g rest)%R
  | _ => 0%R
  end.

(** * Lemmas about the embedding *)

Lemma mapM_nth {A B : Type} (f : A -> result B) (l : list A) (M : list B) (b : nat) (x : A) :
  mapM f l = Ok M -> nth_error l b = Some x ->
  exists y, f x = Ok y /\ nth_error M b = Some y.
Proof.
  revert M b. induction l as [|a l IH]; intros M b Hm Hx.
  - destruct b; discriminate.
  - cbn in Hm. destruct (f a) as [y|e] eqn:Ef; cbn in Hm; [|discriminate].
    destruct (mapM f l) as [ys|e] eqn:Em; cbn in Hm; [|discriminate].
    injection Hm as <-. destruct b as [|b]; cbn in Hx.
    + injection Hx as <-. exists y. auto.
    + destruct (IH ys b eq_refl Hx) as (y' & Hy & Hn). exists y'. auto.
Qed.

Lemma nth_error_combine_seq {A : Type} (l : list A) (k b : nat) (s : A) :
  nth_error l b = Some s -> nth_error (combine (seq k (length l)) l) b = Some ((k + b)%nat, s).
Proof.
  revert k b. induction l as [|a l IH]; intros k b H.
  - destruct b; discriminate.
  - destruct b as [|b]; cbn in *.
    + injection H as <-. rewrite Nat.add_0_r. reflexivity.
    + rewrite (IH (S k) b H). f_equal. f_equal. lia.
Qed.

Lemma set_nth_length {A : Type} (l : list A) (i : nat) (v : A) (l' : list A) :
  set_nth l i v = Ok l' -> length l' = length l.
Proof.
  revert i l'. induction l as [|x l IH]; intros i l' H; [discriminate|].
  destruct i as [|i]; cbn in H.
  - injection H as <-. reflexivity.
  - destruct (set_nth l i v) as [ys|e] eqn:E; cbn in H; [|discriminate].
    injection H as <-. cbn. rewrite (IH i ys E). reflexivity.
Qed.

Lemma zip_with_length {A B C : Type} (f : A -> B -> C) (l1 : list A) (l2 : list B) :
  length l1 = length l2 -> length (zip_with f l1 l2) = length l1.
Proof.
  revert l2. induction l1 as [|x l1 IH]; intros [|y l2] H; cbn in *; try lia.
  rewrite IH; lia.
Qed.

Lemma map_false_length {A B : Type} (l1 : list A) (l2 : list B) :
  length l1 = length l2 -> map (fun _ => false) l1 = map (fun _ => false) l2.
Proof.
  revert l2. induction l1 as [|x l1 IH]; intros [|y l2] H; cbn in *; try lia; auto.
  rewrite (IH l2); auto.
Qed.

(** Past the batch-wide early return, row [b] of the mask is [mask_row]
    of sample [b]. *)
Lemma update_mask_row (dyn : list sample) (chosen_idx : list nat)
  (M : list (list bool)) (b : nat) (s : sample) :
  update_mask dyn chosen_idx = Ok M -> nth_error dyn b = Some s ->
  batch_all_served dyn = false ->
  exists row, mask_row s (nth_error chosen_idx b) = Ok row /\ nth_error M b = Some row.
Proof.
  intros Hrun Hs Hb. unfold update_mask in Hrun. rewrite Hb in Hrun.
  destruct (length dyn <? length chosen_idx); [discriminate|].
  destruct (mapM_nth _ _ _ _ _ Hrun (nth_error_combine_seq dyn 0 b s Hs))
    as (row & Hrow & Hn).
  exists row. auto.
Qed.

(** At the batch-wide early return, row [b] is all zero. *)
Lemma update_mask_early (dyn : list sample) (chosen_idx : list nat)
  (M : list (list bool)) (b : nat) (s : sample) :
  update_mask dyn chosen_idx = Ok M -> nth_error dyn b = Some s ->
  batch_all_served dyn = true ->
  nth_error M b = Some (map (fun _ => false) (demands s)).
Proof.
  intros Hrun Hs Hb. unfold update_mask in Hrun. rewrite Hb in Hrun.
  injection Hrun as <-. rewrite nth_error_map, Hs. reflexivity.
Qed.

(** When the override of sample [s] fires, [mask_row] is depot-only. *)
Lemma mask_row_override (s : sample) (c : option nat) (row : list bool) :
  mask_row s c = Ok row -> length (loads s) = length (demands s) ->
  depot_override s = Ok true ->
  row = true :: map (fun _ => false) (tl (demands s)).
Proof.
  intros H Hlen Ho. unfold mask_row in H.
  set (r0 := zip_with _ (demands s) (loads s)) in H.
  assert (Hr0 : length r0 = length (demands s))
    by (apply zip_with_length; auto).
  destruct c as [c|].
  - destruct (set_nth r0 0 (negb (c =? 0))) as [r1|e] eqn:E; cbn in H; [|discriminate].
    rewrite Ho in H. cbn in H. injection H as <-. f_equal.
    apply map_false_length. rewrite !length_tl, (set_nth_length _ _ _ _ E). lia.
  - cbn in H. rewrite Ho in H. cbn in H. injection H as <-. f_equal.
    apply map_false_length. rewrite !length_tl. lia.
Qed.

Lemma depot_override_true (s : sample) (b : bool) :
  depot_override s = Ok b ->
  (exists l0, nth_error (loads s) 0 = Some l0 /\ l0 == 0) \/ Qsum (tl (demands s)) == 0 ->
  b = true.
Proof.
  unfold depot_override, nth_err. intros H [(l0 & Hl & Hz) | Hz].
  - rewrite Hl in H. cbn in H. injection H as <-.
    apply Qeq_bool_iff in Hz. rewrite Hz. reflexivity.
  - destruct (nth_error (loads s) 0); cbn in H; [|discriminate].
    injection H as <-. apply Qeq_bool_iff in Hz. rewrite Hz, orb_true_r. reflexivity.
Qed.

Lemma mask_row_depot_ok (s : sample) (c : option nat) (row : list bool) :
  mask_row s c = Ok row -> exists b, depot_override s = Ok b.
Proof.
  unfold mask_row. intros H.
  destruct c as [c|]; cbn in H.
  - destruct (set_nth _ 0 _); cbn in H; [|discriminate].
    destruct (depot_override s) as [b|e]; cbn in H; [eauto|discriminate].
  - destruct (depot_override s) as [b|e]; cbn in H; [eauto|discriminate].
Qed.

Lemma Qsum_all_zero (l : list Q) :
  forallb (fun d => Qeq_bool d 0) l = true -> Qsum l == 0.
Proof.
  induction l as [|x l IH]; cbn; intros H; [reflexivity|].
  apply andb_true_iff in H as [Hx Hl]. apply Qeq_bool_iff in Hx.
  rewrite Hx, (IH Hl). reflexivity.
Qed.

(** * The claims *)

(** ** update_mask *)

(** C2 (amended): for a sample whose non-depot demands are all 0,
    [update_mask] returns the all-zero row only when every demand entry of
    every sample of the batch, depot slot included, is 0 (the batch-wide
    early return); otherwise that sample gets the depot-only row
    [1, 0, ..., 0]. *)
Theorem update_mask_all_served (dyn : list sample) (chosen_idx : list nat)
  (M : list (list bool)) (b : nat) (s : sample)
  (Hrun : update_mask dyn chosen_idx = Ok M) (Hs : nth_error dyn b = Some s)
  (Hlen : length (loads s) = length (demands s))
  (Hserved : forallb (fun d => Qeq_bool d 0) (tl (demands s)) = true) :
  nth_error M b =
    Some (if batch_all_served dyn then map (fun _ => false) (demands s)
          else true :: map (fun _ => false) (tl (demands s))).
Proof.
  destruct (batch_all_served dyn) eqn:Hb.
  - exact (update_mask_early _ _ _ _ _ Hrun Hs Hb).
  - destruct (update_mask_row _ _ _ _ _ Hrun Hs Hb) as (row & Hrow & Hn).
    rewrite Hn. f_equal.
    destruct (mask_row_depot_ok _ _ _ Hrow) as [o Ho].
    pose proof (depot_override_true s o Ho (or_intror (Qsum_all_zero _ Hserved))).
    subst o. exact (mask_row_override _ _ _ Hrow Hlen Ho).
Qed.

(** C3 (amended): for a sample with load [loads[0] = 0] or with zero total
    non-depot demand, the row is depot-only [1, 0, ..., 0], except when
    every demand entry of every sample of the batch is 0: then
    [update_mask] returns the all-zero mask. *)
Theorem update_mask_depot_only (dyn : list sample) (chosen_idx : list nat)
  (M : list (list bool)) (b : nat) (s : sample)
  (Hrun : update_mask dyn chosen_idx = Ok M) (Hs : nth_error dyn b = Some s)
  (Hlen : length (loads s) = length (demands s))
  (Hcond : (exists l0, nth_error (loads s) 0 = Some l0 /\ l0 == 0)
           \/ Qsum (tl (demands s)) == 0) :
  nth_error M b =
    Some (if batch_all_served dyn then map (fun _ => false) (demands s)
          else true :: map (fun _ => false) (tl (demands s))).
Proof.
  destruct (batch_all_served dyn) eqn:Hb.
  - exact (update_mask_early _ _ _ _ _ Hrun Hs Hb).
  - destruct (update_mask_row _ _ _ _ _ Hrun Hs Hb) as (row & Hrow & Hn).
    rewrite Hn. f_equal.
    destruct (mask_row_depot_ok _ _ _ Hrow) as [o Ho].
    pose proof (depot_override_true s o Ho Hcond). subst o.
    exact (mask_row_override _ _ _ Hrow Hlen Ho).
Qed.

(** C5 (amended): the depot entry [mask[0]] of sample [b] is 0 when every
    demand entry of every sample of the batch is 0; otherwise it is 1 if
    the chosen node [c] was not the depot or the depot-only override
    ([loads[0] = 0] or zero non-depot demand) applies, and 0 if [c] was the
    depot and the override does not apply. *)
Theorem update_mask_depot_slot (dyn : list sample) (chosen_idx : list nat)
  (M : list (list bool)) (b c : nat) (s : sample)
  (Hrun : update_mask dyn chosen_idx = Ok M) (Hs : nth_error dyn b = Some s)
  (Hc : nth_error chosen_idx b = Some c)
  (Hlen : length (loads s) = length (demands s)) (Hne : demands s <> []) :
  exists row, nth_error M b = Some row /\
    hd_error row =
      Some (if batch_all_served dyn then false
            else negb (c =? 0)
                 || (Qeq_bool (hd 0 (loads s)) 0 || Qeq_bool (Qsum (tl (demands s))) 0)).
Proof.
  destruct (batch_all_served dyn) eqn:Hb.
  - rewrite (update_mask_early _ _ _ _ _ Hrun Hs Hb).
    eexists; split; [reflexivity|].
    destruct (demands s); [contradiction|reflexivity].
  - destruct (update_mask_row _ _ _ _ _ Hrun Hs Hb) as (row & Hrow & Hn).
    exists row. split; [exact Hn|]. rewrite Hc in Hrow.
    destruct s as [ls ds vs]; cbn in *.
    destruct ds as [|d ds]; [contradiction|].
    destruct ls as [|l ls]; [discriminate|].
    unfold mask_row, depot_override, nth_err in Hrow. cbn in Hrow.
    cbn [hd tl]. unfold Qsum in *.
    destruct (Qeq_bool l 0 || Qeq_bool (fold_right Qplus 0 ds) 0);
      injection Hrow as <-; cbn; [rewrite orb_true_r|rewrite orb_false_r]; reflexivity.
Qed.

Lemma update_mask_all_served_witness :
  nth_error [[true; false; false]] 0 =
    Some (if batch_all_served [mk_sample [1#2; 1#2; 1#2] [-1#2; 0; 0] [0; 0; 0]]
          then map (fun _ => false) [-1#2; 0; 0]
          else true :: map (fun _ => false) [0; 0]).
Proof.
  apply (update_mask_all_served [mk_sample [1#2; 1#2; 1#2] [-1#2; 0; 0] [0; 0; 0]]
           [2%nat] [[true; false; false]] 0 (mk_sample [1#2; 1#2; 1#2] [-1#2; 0; 0] [0; 0; 0]));
    reflexivity.
Defined.

(** C2 counterexample: one sample, load 1/2, customers all served, the
    depot slot holding load - 1 = -1/2: the mask is depot-only, not all
    zero. *)
Lemma update_mask_all_served_cex :
  forallb (fun d => Qeq_bool d 0) (tl [-1#2; 0; 0]) = true /\
  update_mask [mk_sample [1#2; 1#2; 1#2] [-1#2; 0; 0] [0; 0; 0]] [2%nat]
    = Ok [[true; false; false]].
Proof. split; reflexivity. Qed.

Lemma update_mask_depot_only_witness :
  nth_error [[true; false; false]] 0 =
    Some (if batch_all_served [mk_sample [1#2; 1#2; 1#2] [-1#2; 0; 0] [0; 0; 0]]
          then map (fun _ => false) [-1#2; 0; 0]
          else true :: map (fun _ => false) [0; 0]).
Proof.
  apply (update_mask_depot_only [mk_sample [1#2; 1#2; 1#2] [-1#2; 0; 0] [0; 0; 0]]
           [1%nat] [[true; false; false]] 0 (mk_sample [1#2; 1#2; 1#2] [-1#2; 0; 0] [0; 0; 0]));
    [reflexivity | reflexivity | reflexivity | right; apply Qeq_bool_iff; reflexivity].
Defined.

(** C3 counterexample: one sample back at the depot after serving every
    customer (load 1, all demands 0): the non-depot demand is 0, yet the
    mask is all zero, not [1, 0, 0]. *)
Lemma update_mask_depot_only_cex :
  Qsum (tl [0; 0; 0]) == 0 /\
  update_mask [mk_sample [1; 1; 1] [0; 0; 0] [0; 0; 0]] [0%nat]
    = Ok [[false; false; false]].
Proof. split; [apply Qeq_bool_iff|]; reflexivity. Qed.

Lemma update_mask_depot_slot_witness :
  exists row, nth_error [[true; true; true]] 0 = Some row /\
    hd_error row =
      Some (if batch_all_served [mk_sample [1; 1; 1] [0; 1#20; 9#20] [0; 0; 0]] then false
            else negb (2 =? 0)%nat
                 || (Qeq_bool (hd 0 [1; 1; 1]) 0 || Qeq_bool (Qsum (tl [0; 1#20; 9#20])) 0)).
Proof.
  apply (update_mask_depot_slot [mk_sample [1; 1; 1] [0; 1#20; 9#20] [0; 0; 0]]
           [2%nat] [[true; true; true]] 0 2 (mk_sample [1; 1; 1] [0; 1#20; 9#20] [0; 0; 0]));
    [reflexivity | reflexivity | reflexivity | reflexivity | discriminate].
Defined.

(** C5 counterexample: the chosen node was customer 1, not the depot, yet
    [mask[0] = 0]: every demand entry of the batch is 0, so the early
    return gives the all-zero mask. *)
Lemma update_mask_depot_slot_cex :
  update_mask [mk_sample [1; 1; 1] [0; 0; 0] [0; 0; 0]] [1%nat]
    = Ok [[false; false; false]].
Proof. reflexivity. Qed.

(** ** update_time_mask *)

Lemma mapM_combine_Forall2 {A B C : Type} (P : A -> B -> Prop)
  (f : A * B -> result C) (g : A -> B -> C) (l1 : list A) (l2 : list B) :
  Forall2 P l1 l2 -> (forall x y, P x y -> f (x, y) = Ok (g x y)) ->
  mapM f (combine l1 l2) = Ok (zip_with g l1 l2).
Proof.
  intros HF Hf. induction HF as [|x y l1 l2 Hxy _ IH]; [reflexivity|].
  cbn. rewrite (Hf x y Hxy). cbn. rewrite IH. reflexivity.
Qed.

Lemma bcast_same_length {A B C : Type} (f : A -> B -> result C) (xs : list A) (ys : list B) :
  length xs = length ys -> bcast f xs ys = mapM (fun '(x, y) => f x y) (combine xs ys).
Proof.
  intros H. destruct xs as [|x [|x2 xs]], ys as [|y [|y2 ys]]; cbn in H; try lia;
    unfold bcast; cbn.
  all: try reflexivity.
  all: try (injection H as H; rewrite H, Nat.eqb_refl; reflexivity).
  all: destruct (f x y); reflexivity.
Qed.

Lemma bcast2_same_shape {A B C : Type} (f : A -> B -> C)
  (m1 : list (list A)) (m2 : list (list B)) :
  Forall2 (fun r1 r2 => length r1 = length r2) m1 m2 ->
  bcast2 (fun x y => Ok (f x y)) m1 m2 = Ok (zip_with (zip_with f) m1 m2).
Proof.
  intros HF. unfold bcast2.
  rewrite bcast_same_length by exact (Forall2_length HF).
  apply (mapM_combine_Forall2 _ _ _ _ _ HF).
  intros r1 r2 Hr. rewrite bcast_same_length by exact Hr.
  apply (mapM_combine_Forall2 (fun _ _ => True)); [|reflexivity].
  revert r2 Hr. induction r1 as [|x r1 IH]; intros [|y r2] Hr; cbn in Hr;
    try discriminate; constructor; auto.
Qed.

Lemma Forall2_from_nth {A B : Type} (P : A -> B -> Prop) (l1 : list A) (l2 : list B)
  (d1 : A) (d2 : B) :
  length l1 = length l2 ->
  (forall i, (i < length l1)%nat -> P (nth i l1 d1) (nth i l2 d2)) ->
  Forall2 P l1 l2.
Proof.
  revert l2. induction l1 as [|x l1 IH]; intros [|y l2] Hl H; cbn in Hl;
    try discriminate; constructor.
  - apply (H 0%nat). cbn. lia.
  - apply IH; [lia|]. intros i Hi. apply (H (S i)). cbn. lia.
Qed.

Lemma nth_zip_with {A B C : Type} (f : A -> B -> C) (l1 : list A) (l2 : list B)
  (i : nat) (d : C) (d1 : A) (d2 : B) :
  (i < length l1)%nat -> (i < length l2)%nat ->
  nth i (zip_with f l1 l2) d = f (nth i l1 d1) (nth i l2 d2).
Proof.
  revert l2 i. induction l1 as [|x l1 IH]; intros [|y l2] i H1 H2; cbn in *; try lia.
  destruct i as [|i]; [reflexivity|]. apply IH; lia.
Qed.

Lemma zip_with_length_min {A B C : Type} (f : A -> B -> C) (l1 : list A) (l2 : list B) :
  length (zip_with f l1 l2) = Nat.min (length l1) (length l2).
Proof.
  revert l2. induction l1 as [|x l1 IH]; intros [|y l2]; cbn; auto.
Qed.

Lemma map_combine_zip_with {A B C : Type} (g : A -> B -> C) (l1 : list A) (l2 : list B) :
  map (fun '(x, y) => g x y) (combine l1 l2) = zip_with g l1 l2.
Proof.
  revert l2. induction l1 as [|x l1 IH]; intros [|y l2]; cbn; f_equal; auto.
Qed.

Lemma mapM_ok {A B : Type} (f : A -> result B) (g : A -> B) (l : list A) :
  (forall x, In x l -> f x = Ok (g x)) -> mapM f l = Ok (map g l).
Proof.
  induction l as [|x l IH]; intros H; [reflexivity|].
  cbn. rewrite (H x (or_introl eq_refl)). cbn.
  rewrite IH by (intros y Hy; apply H; right; exact Hy). reflexivity.
Qed.

Lemma nth_err_nth {A : Type} (l : list A) (i : nat) (d : A) :
  (i < length l)%nat -> nth_err l i = Ok (nth i l d).
Proof.
  intros H. unfold nth_err. rewrite (nth_error_nth' l d H). reflexivity.
Qed.

Lemma In_combine_seq {A : Type} (l : list A) (d : A) (b : nat) (c : A) :
  In (b, c) (combine (seq 0 (length l)) l) -> (b < length l)%nat /\ nth b l d = c.
Proof.
  intros H. destruct (In_nth _ _ (0%nat, d) H) as (n & Hn & Heq).
  rewrite length_combine, length_seq, Nat.min_id in Hn.
  rewrite combine_nth in Heq by (rewrite length_seq; reflexivity).
  rewrite seq_nth in Heq by exact Hn. injection Heq as <- <-. auto.
Qed.

(** C6 (amended): [update_time_mask] returns a mask over every node:
    for sample [b] and node [j], the entry is 1 iff
    [end[b][j] >= time_matrix[b][chosen_idx[b]][j] + vehicle_time[b][j]],
    [chosen_idx[b]] being the node the vehicle is at (the origin) and [j]
    the candidate; the end times are the dataset's static rows at the
    batch positions. *)
Theorem update_time_mask_entry (static_end : list (list Q)) (dyn : list sample)
  (chosen_idx : list nat) (time_matrix : list (list (list Q))) (N : nat)
  (Hend : length static_end = length dyn)
  (Hchosen : length chosen_idx = length dyn)
  (Hend_rows : Forall (fun r => length r = N) static_end)
  (Hvt_rows : Forall (fun s => length (vtime s) = N) dyn)
  (Htm : forall b, (b < length dyn)%nat ->
         (nth b chosen_idx 0 < length (nth b time_matrix []))%nat /\
         length (nth (nth b chosen_idx 0%nat) (nth b time_matrix []) []) = N) :
  exists M, update_time_mask static_end dyn chosen_idx time_matrix = Ok M /\
    forall b j, (b < length dyn)%nat -> (j < N)%nat ->
      nth j (nth b M []) false =
        Qle_bool (nth j (nth (nth b chosen_idx 0%nat) (nth b time_matrix []) []) 0
                  + nth j (vtime (nth b dyn (mk_sample [] [] []))) 0)
                 (nth j (nth b static_end []) 0).
Proof.
  set (g := fun (b c : nat) => nth c (nth b time_matrix []) []).
  set (CT := zip_with g (seq 0 (length chosen_idx)) chosen_idx).
  set (vt := map vtime dyn).
  assert (HCT : forall b, (b < length dyn)%nat ->
            nth b CT [] = g b (nth b chosen_idx 0%nat) /\ length (nth b CT []) = N).
  { intros b Hb. unfold CT.
    rewrite (nth_zip_with _ _ _ _ _ 0%nat 0%nat) by (rewrite ?length_seq; lia).
    rewrite seq_nth by lia. split; [reflexivity|]. apply (Htm b Hb). }
  assert (Hvt : forall b, (b < length dyn)%nat ->
            nth b vt [] = vtime (nth b dyn (mk_sample [] [] [])) /\
            length (nth b vt []) = N).
  { intros b Hb.
    assert (E : nth b vt [] = vtime (nth b dyn (mk_sample [] [] [])))
      by exact (map_nth vtime dyn (mk_sample [] [] []) b).
    rewrite E. split; [reflexivity|]. rewrite Forall_forall in Hvt_rows.
    apply Hvt_rows, nth_In. exact Hb. }
  assert (Hlen_CT : length CT = length dyn)
    by (unfold CT; rewrite zip_with_length_min, length_seq; lia).
  assert (Hlen_vt : length vt = length dyn) by (unfold vt; apply length_map).
  unfold update_time_mask. fold vt.
  rewrite (mapM_ok _ (fun '(x, y) => g x y)).
  2:{ intros [b c] Hin.
      destruct (In_combine_seq chosen_idx 0%nat b c Hin) as [Hb Hc].
      destruct (Htm b ltac:(lia)) as [Hc1 _]. rewrite Hc in Hc1.
      assert (Hb' : (b < length time_matrix)%nat).
      { destruct (Nat.lt_ge_cases b (length time_matrix)) as [Hlt|Hge]; [exact Hlt|].
        rewrite nth_overflow in Hc1 by exact Hge. cbn in Hc1. lia. }
      rewrite (nth_err_nth _ _ [] Hb'). cbn. rewrite (nth_err_nth _ _ [] Hc1). reflexivity. }
  rewrite map_combine_zip_with. fold CT. cbn [bind].
  assert (HF1 : Forall2 (fun r1 r2 => length r1 = length r2) CT vt).
  { apply (Forall2_from_nth _ _ _ [] []); [lia|].
    intros i Hi. rewrite (proj2 (HCT i ltac:(lia))), (proj2 (Hvt i ltac:(lia))). reflexivity. }
  rewrite (bcast2_same_shape Qplus _ _ HF1). cbn [bind].
  set (NT := zip_with (zip_with Qplus) CT vt).
  assert (HNT : forall b, (b < length dyn)%nat ->
            nth b NT [] = zip_with Qplus (nth b CT []) (nth b vt []) /\
            length (nth b NT []) = N).
  { intros b Hb. unfold NT.
    rewrite (nth_zip_with _ _ _ _ _ [] []) by lia.
    split; [reflexivity|].
    rewrite zip_with_length; [apply (HCT b Hb)|].
    rewrite (proj2 (HCT b Hb)), (proj2 (Hvt b Hb)). reflexivity. }
  assert (HF2 : Forall2 (fun r1 r2 => length r1 = length r2) static_end NT).
  { apply (Forall2_from_nth _ _ _ [] []).
    - unfold NT. rewrite zip_with_length_min. lia.
    - intros i Hi. rewrite (proj2 (HNT i ltac:(lia))).
      rewrite Forall_forall in Hend_rows. apply Hend_rows, nth_In. exact Hi. }
  rewrite (bcast2_same_shape (fun e t => Qle_bool t e) _ _ HF2).
  eexists; split; [reflexivity|].
  intros b j Hb Hj.
  assert (Hlen_NT : length NT = length dyn)
    by (unfold NT; rewrite zip_with_length_min; lia).
  rewrite (nth_zip_with _ _ _ _ _ [] []) by lia.
  destruct (HNT b Hb) as [HNTb HNTl].
  assert (Hendl : length (nth b static_end []) = N).
  { rewrite Forall_forall in Hend_rows. apply Hend_rows, nth_In. lia. }
  rewrite (nth_zip_with _ _ _ _ _ 0 0) by lia.
  rewrite HNTb.
  destruct (HCT b Hb) as [HCTb HCTl]. destruct (Hvt b Hb) as [Hvtb Hvtl].
  rewrite (nth_zip_with _ _ _ _ _ 0 0) by lia.
  rewrite HCTb, Hvtb. reflexivity.
Qed.

Lemma update_time_mask_entry_witness :
  exists M, update_time_mask [[1; 1#2]] [mk_sample [1; 1] [0; 1#10] [0; 0]] [1%nat]
              [[[0; 1]; [1; 0]]] = Ok M /\
    forall b j, (b < 1)%nat -> (j < 2)%nat ->
      nth j (nth b M []) false =
        Qle_bool (nth j (nth (nth b [1%nat] 0%nat) (nth b [[[0; 1]; [1; 0]]] []) []) 0
                  + nth j (vtime (nth b [mk_sample [1; 1] [0; 1#10] [0; 0]] (mk_sample [] [] []))) 0)
                 (nth j (nth b [[1; 1#2]] []) 0).
Proof.
  apply (update_time_mask_entry [[1; 1#2]] [mk_sample [1; 1] [0; 1#10] [0; 0]] [1%nat]
           [[[0; 1]; [1; 0]]] 2); [reflexivity | reflexivity | repeat constructor
                                  | repeat constructor | ].
  intros b Hb. cbn in Hb. destruct b as [|b]; [cbn; split; lia | lia].
Defined.

(** C6 counterexample: vehicle at time 0, previous node the depot (0),
    chosen node 1 with end time 1/2, [time_matrix[0][1] = 1]: the arrival
    [0 + time_matrix[0][1] = 1] is past the end 1/2, yet the entry of node
    1 is 1, since the code reads row [time_matrix[chosen_idx]] and
    [time_matrix[1][1] = 0]. *)
Lemma update_time_mask_entry_cex :
  update_time_mask [[1; 1#2]] [mk_sample [1; 1] [0; 1#10] [0; 0]] [1%nat]
    [[[0; 1]; [1; 0]]] = Ok [[true; true]] /\
  1#2 < 0 + nth 1 (nth 0 (nth 0 [[[0; 1]; [1; 0]]] []) []) 0.
Proof. split; [reflexivity|]. cbn. reflexivity. Qed.

(** ** update_dynamic *)

Lemma visit_update_raises (static_start : list (list Q)) (servicetime : Q)
  (chosen_idx pre_chosen_idx : list nat) (time_matrix : list (list (list Q)))
  (load demand vt : list Q) (st : dyn_arrays) :
  exists e, visit_update static_start servicetime chosen_idx pre_chosen_idx
              time_matrix load demand vt st = Err e.
Proof.
  unfold visit_update. cbn [torch_clamp bind].
  destruct (rout_times time_matrix pre_chosen_idx chosen_idx); cbn [bind]; [|eauto].
  destruct (py_range_tensor (length chosen_idx) chosen_idx); cbn [bind]; [|eauto].
  destruct (mapM (nth_err static_start) l0); cbn [bind]; eauto.
Qed.

Lemma existsb_visit (chosen_idx : list nat) :
  existsb (fun b => b) (map (fun c => negb (c =? 0)) chosen_idx)
  = existsb (fun c => negb (c =? 0)) chosen_idx.
Proof. induction chosen_idx as [|c l IH]; cbn; [reflexivity|]. rewrite IH. reflexivity. Qed.

(** C4 (code_bug): [update_dynamic] raises on every batch in which some
    sample visits a customer, so no customer visit ever produces a new
    vehicle time: on a batch of two or more samples
    [range(batch_size, chosen_idx)] raises [TypeError], and on a batch of
    one [torch.clamp(vtime+rout_time)], with no bound, raises
    [RuntimeError]. *)
Theorem update_dynamic_customer_raises (static_start : list (list Q)) (servicetime : Q)
  (dyn : list sample) (chosen_idx pre_chosen_idx : list nat)
  (time_matrix : list (list (list Q)))
  (Hvisit : existsb (fun c => negb (c =? 0)) chosen_idx = true) :
  exists e, update_dynamic static_start servicetime dyn chosen_idx pre_chosen_idx
              time_matrix = Err e.
Proof.
  unfold update_dynamic.
  destruct (gather (map loads dyn) chosen_idx) as [load|e]; cbn [bind]; [|eauto].
  destruct (gather (map demands dyn) chosen_idx) as [demand|e]; cbn [bind]; [|eauto].
  destruct (gather (map vtime dyn) chosen_idx) as [vt|e]; cbn [bind]; [|eauto].
  rewrite existsb_visit, Hvisit.
  destruct (visit_update_raises static_start servicetime chosen_idx pre_chosen_idx
              time_matrix load demand vt (map loads dyn, map demands dyn, map vtime dyn))
    as [e He].
  rewrite He. cbn [bind]. eauto.
Qed.

Lemma update_dynamic_customer_raises_witness :
  exists e, update_dynamic [[0; 0; 0]] 0
              [mk_sample [1; 1; 1] [0; 1#20; 9#20] [0; 0; 0]] [2%nat] [0%nat]
              [[[0; 1; 1]; [1; 0; 1]; [1; 1; 0]]] = Err e.
Proof. apply update_dynamic_customer_raises. reflexivity. Defined.

(** C1 (code_bug): two fresh samples (load 1, depot demand 0, vehicle
    time 0) both visit a customer: [update_dynamic] raises [TypeError] at
    [range(batch_size, chosen_idx)] before any load or demand is written
    back, so no new load or demand is returned. *)
Theorem update_dynamic_load_demand_raises :
  update_dynamic [[0; 0; 0]; [0; 1#48; 1#12]] 0
    [mk_sample [1; 1; 1] [0; 1#20; 9#20] [0; 0; 0];
     mk_sample [1; 1; 1] [0; 1#10; 1#20] [0; 0; 0]]
    [1; 2]%nat [0; 0]%nat
    [[[0; 1; 1]; [1; 0; 1]; [1; 1; 0]]; [[0; 1; 1]; [1; 0; 1]; [1; 1; 0]]]
  = Err TypeError.
Proof. reflexivity. Qed.

(** C7 (code_bug): one sample at vehicle time 1/4 visits customer 1:
    [update_dynamic] raises [RuntimeError] at the bound-less
    [torch.clamp], so no new vehicle time is produced. *)
Theorem update_dynamic_vtime_raises :
  update_dynamic [[0; 0; 0]; [0; 1#48; 1#12]] 0
    [mk_sample [1; 1; 1] [0; 1#20; 9#20] [1#4; 1#4; 1#4]]
    [1%nat] [0%nat] [[[0; 1; 1]; [1; 0; 1]; [1; 1; 0]]]
  = Err RuntimeError.
Proof. reflexivity. Qed.

(** C10 (code_bug): from a state satisfying [demand[0] = load - 1]
    (load 1/2 after a first customer), visiting customer 2 raises
    [RuntimeError] before line 189 writes [demand[0] = new_load - 1]: a
    customer visit never yields a new state. *)
Theorem update_dynamic_depot_slot_raises :
  update_dynamic [[0; 0; 0]; [0; 1#48; 1#12]] 0
    [mk_sample [1#2; 1#2; 1#2] [-1#2; 0; 1#4] [1#4; 1#4; 1#4]]
    [2%nat] [1%nat] [[[0; 1; 1]; [1; 0; 1]; [1; 1; 0]]]
  = Err RuntimeError.
Proof. reflexivity. Qed.

(** ** VRPTWDataset.__init__ *)

Lemma generate_no_ValueError (p : params) : generate p <> Err ValueError.
Proof.
  unfold generate, py_div, torch_randint, torch_size.
  repeat match goal with
         | |- context [if ?c then _ else _] => destruct c
         end; cbn; discriminate.
Qed.

(** C9 (amended): construction raises [ValueError] iff
    [max_load < max_demand] or [max_TW < min_TW] or [TW_to < TW_from] (the
    checks of lines 27-32, before any instance data is generated), or a
    [seed] outside [[0, 2^32 - 1]] is passed ([np.random.seed] at line 36).
    A [ValueError] from the checks comes exactly from a broken constraint.
    The steps after the seeding never raise [ValueError], but may raise
    other errors (see the counterexample). *)
Theorem VRPTWDataset_init_config_errors (p : params) :
  (VRPTWDataset_init p = Err ValueError <->
     config_violated p = true \/
     (exists s, seed p = Some s /\ (s < 0 \/ 2 ^ 32 - 1 < s)%Z)) /\
  (validate p = Err ValueError <-> config_violated p = true) /\
  (validate p = Ok tt <-> config_violated p = false).
Proof.
  pose proof (generate_no_ValueError p) as Hg.
  assert (Hv : (validate p = Err ValueError <-> config_violated p = true) /\
               (validate p = Ok tt <-> config_violated p = false)).
  { unfold validate, config_violated.
    destruct (max_load p <? max_demand p)%Z, (max_TW p <? min_TW p)%Z,
      (TW_to p <? TW_from p)%Z; cbn;
      repeat split; intros Hc; try discriminate; reflexivity. }
  split; [|exact Hv]. destruct Hv as [Hv1 Hv2].
  unfold VRPTWDataset_init.
  destruct (config_violated p) eqn:Ec.
  - rewrite (proj2 Hv1 eq_refl). cbn [bind]. split; [intros _; left; reflexivity | reflexivity].
  - rewrite (proj2 Hv2 eq_refl). cbn [bind]. unfold seed_rng.
    destruct (seed p) as [s|].
    + destruct (Z.leb_spec 0 s), (Z.leb_spec s (2 ^ 32 - 1)); cbn [andb bind].
      all: split;
        [ intros Hc; first [contradiction | right; exists s; split; [reflexivity | lia]]
        | intros [Hc | (s' & Hs & Hr)];
          [discriminate | first [reflexivity | injection Hs as <-; lia]] ].
    + split; [intros Hc; contradiction | intros [Hc | (s' & Hs & _)]; discriminate].
Qed.

(** C9 counterexample: the default bounds with [TW_to = 5] satisfy the
    three constraints, yet construction raises: the start-window draw
    [torch.randint(TW_from, TW_to-max_TW+1)] = [randint(0, -2)] has an
    empty range.  And with the default bounds and [seed = -1], the three
    constraints hold, yet [np.random.seed(-1)] raises [ValueError] after
    the checks. *)
Lemma VRPTWDataset_init_config_errors_cex :
  config_violated (mk_params 10 10 20 9 2 8 0 5 None) = false /\
  VRPTWDataset_init (mk_params 10 10 20 9 2 8 0 5 None) = Err RuntimeError /\
  config_violated (mk_params 10 10 20 9 2 8 0 48 (Some (-1)%Z)) = false /\
  validate (mk_params 10 10 20 9 2 8 0 48 (Some (-1)%Z)) = Ok tt /\
  VRPTWDataset_init (mk_params 10 10 20 9 2 8 0 48 (Some (-1)%Z)) = Err ValueError.
Proof. repeat split. Qed.

(** ** reward *)

Lemma sq_dist_self (p : list R) : sq_dist p p = 0%R.
Proof.
  induction p as [|a p IH]; [reflexivity|].
  change (sq_dist (a :: p) (a :: p)) with ((a - a) ^ 2 + sq_dist p p)%R.
  rewrite IH. ring.
Qed.

Lemma point_err (static : list (list R)) (i : nat) (e : exn) :
  point static i = Err e -> e = RuntimeError.
Proof.
  unfold point. induction static as [|row st IH]; cbn; [discriminate|].
  destruct (nth_error row i); cbn; [|congruence].
  destruct (mapM _ st); cbn; [discriminate|auto].
Qed.

Lemma mapM_point_err (static : list (list R)) (l : list nat) (e : exn) :
  mapM (point static) l = Err e -> e = RuntimeError.
Proof.
  induction l as [|i l IH]; cbn; [discriminate|].
  destruct (point static i) eqn:E; cbn; [|intros H; injection H as <-; eapply point_err; eauto].
  destruct (mapM (point static) l); cbn; [discriminate|auto].
Qed.

(** A segment of [depot] to [depot] adds nothing. *)
Lemma reward_sample_depot_head (static : list (list R)) (tour : list nat) :
  reward_sample static (0%nat :: tour) = reward_sample static tour.
Proof.
  unfold reward_sample. cbn [mapM bind].
  destruct (point static 0) as [s|e] eqn:E0; cbn [bind].
  - destruct (mapM (point static) tour) as [ts|e] eqn:Et; cbn [bind]; [|reflexivity].
    cbn [app]. f_equal.
    change (removelast (s :: s :: ts ++ [s])) with (s :: removelast (s :: ts ++ [s])).
    cbn [tl zip_with fold_right]. rewrite sq_dist_self, sqrt_0. ring.
  - destruct (mapM (point static) tour) as [ts|e'] eqn:Et; cbn [bind].
    + reflexivity.
    + rewrite (mapM_point_err _ _ _ Et), (point_err _ _ _ E0). reflexivity.
Qed.

Lemma point_2d (xs ys : list R) (i : nat) :
  length xs = length ys -> (i < length xs)%nat ->
  point [xs; ys] i = Ok [nth i xs 0%R; nth i ys 0%R].
Proof.
  intros Hl Hi. unfold point. cbn.
  rewrite (nth_error_nth' xs 0%R Hi).
  rewrite (nth_error_nth' ys 0%R) by lia. reflexivity.
Qed.

Lemma segments_path_length (xs ys : list R) (l : list nat) :
  let f := fun i => [nth i xs 0%R; nth i ys 0%R] in
  fold_right Rplus 0%R
    (zip_with (fun p q => sqrt (sq_dist p q)) (removelast (map f l)) (tl (map f l)))
  = path_length (map (node2 xs ys) l).
Proof.
  intros f. destruct l as [|a l]; [reflexivity|].
  revert a. induction l as [|b l IH]; intros a; [reflexivity|].
  specialize (IH b). cbn [map tl] in IH |- *.
  change (removelast (f a :: f b :: map f l))
    with (f a :: removelast (f b :: map f l)).
  cbn [zip_with fold_right path_length]. rewrite IH. f_equal.
  unfold dist2, node2, sq_dist, f. cbn. f_equal. ring.
Qed.

(** [reward] on a coordinate-only static is the spec's 2D tour length. *)
Lemma reward_sample_2d (xs ys : list R) (tour : list nat) :
  length xs = length ys -> (0 < length xs)%nat ->
  Forall (fun i => (i < length xs)%nat) tour ->
  reward_sample [xs; ys] tour = Ok (tour_length_2d xs ys tour).
Proof.
  intros Hl H0 Hin. unfold reward_sample.
  rewrite (mapM_ok _ (fun i => [nth i xs 0%R; nth i ys 0%R])).
  2:{ intros i Hi. rewrite Forall_forall in Hin. apply point_2d; auto. }
  cbn [bind]. rewrite (point_2d xs ys 0 Hl H0). cbn [bind]. f_equal.
  unfold tour_length_2d. rewrite <- segments_path_length.
  cbn [map]. rewrite map_app. reflexivity.
Qed.

Lemma tour_length_2d_example :
  tour_length_2d [0; 1; 1]%R [0; 0; 1]%R [1; 2]%nat = (2 + sqrt 2)%R.
Proof.
  change (tour_length_2d [0; 1; 1]%R [0; 0; 1]%R [1; 2]%nat)
    with (dist2 (0, 0) (1, 0) + (dist2 (1, 0) (1, 1) + (dist2 (1, 1) (0, 0) + 0)))%R.
  unfold dist2. cbn [fst snd].
  replace ((0 - 1) ^ 2 + (0 - 0) ^ 2)%R with 1%R by ring.
  replace ((1 - 1) ^ 2 + (0 - 1) ^ 2)%R with 1%R by ring.
  replace ((1 - 0) ^ 2 + (1 - 0) ^ 2)%R with 2%R by ring.
  rewrite sqrt_1. ring.
Qed.

(** C8 (amended): [reward] sums the Euclidean distances between
    consecutive points of the tour with the depot concatenated at both
    ends, a node's point being its whole column of [static] features.  On
    a coordinate-only [static] [[xs; ys]] this is the 2D tour length
    [tour_length_2d]; for depot (0,0), customers (1,0), (1,1) and tour
    [1; 2] it is [2 + sqrt 2]; and a depot-to-depot segment adds 0 for any
    [static].  (On the dataset's static rows (x, y, tw_start, tw_end) the
    time-window features enter the distance too: see the counterexample.) *)
Theorem reward_sample_euclid (xs ys : list R) (tour : list nat)
  (Hlen : length xs = length ys) (Hdepot : (0 < length xs)%nat)
  (Hin : Forall (fun i => (i < length xs)%nat) tour) :
  reward_sample [xs; ys] tour = Ok (tour_length_2d xs ys tour) /\
  reward_sample [[0; 1; 1]; [0; 0; 1]]%R [1; 2]%nat = Ok (2 + sqrt 2)%R /\
  (forall static t, reward_sample static (0%nat :: t) = reward_sample static t).
Proof.
  split; [exact (reward_sample_2d xs ys tour Hlen Hdepot Hin)|].
  split; [|exact reward_sample_depot_head].
  rewrite reward_sample_2d by (cbn; repeat constructor; lia).
  rewrite tour_length_2d_example. reflexivity.
Qed.

Lemma reward_sample_euclid_witness :
  reward_sample [[0; 1; 1]; [0; 0; 1]]%R [1; 2]%nat
    = Ok (tour_length_2d [0; 1; 1]%R [0; 0; 1]%R [1; 2]%nat) /\
  reward_sample [[0; 1; 1]; [0; 0; 1]]%R [1; 2]%nat = Ok (2 + sqrt 2)%R /\
  (forall static t, reward_sample static (0%nat :: t) = reward_sample static t).
Proof.
  apply (reward_sample_euclid [0; 1; 1]%R [0; 0; 1]%R [1; 2]%nat);
    [reflexivity | cbn; lia | repeat constructor; cbn; lia].
Defined.

(** C8 counterexample: the same instance as a dataset sample, whose
    [static] also holds the time windows (depot [0, 1], customers
    [1/3, 1/2]): [reward] exceeds the 2D length [2 + sqrt 2]. *)
Lemma reward_sample_euclid_cex :
  exists r, reward_sample [[0; 1; 1]; [0; 0; 1]; [0; 1/3; 1/3]; [1; 1/2; 1/2]]%R
              [1; 2]%nat = Ok r /\ (2 + sqrt 2 < r)%R.
Proof.
  eexists; split; [reflexivity|].
  cbn -[sqrt pow Rdiv].
  match goal with
  | |- (_ < sqrt ?a + (sqrt ?b + (sqrt ?c + 0)))%R =>
      replace a with (49/36)%R by (field);
      replace b with 1%R by (field);
      replace c with (85/36)%R by (field)
  end.
  rewrite sqrt_1.
  assert (H1 : (sqrt 1 < sqrt (49/36))%R) by (apply sqrt_lt_1_alt; lra).
  assert (H2 : (sqrt 2 < sqrt (85/36))%R) by (apply sqrt_lt_1_alt; lra).
  rewrite sqrt_1 in H1. lra.
Qed.

(** * Further properties of the code *)

(** ** generate_time_matrix *)

Lemma nth_map_lt {A B : Type} (f : A -> B) (l : list A) (n : nat) (d : B) (d0 : A) :
  (n < length l)%nat -> nth n (map f l) d = f (nth n l d0).
Proof.
  intros H. rewrite (nth_indep _ d (f d0)) by (rewrite length_map; exact H).
  apply map_nth.
Qed.

Lemma time_matrix_entry (v : R) (xs ys : list R) (i j : nat) :
  length xs = length ys -> (i < length xs)%nat -> (j < length xs)%nat ->
  at2 (time_matrix_sample v xs ys) i j
  = (sqrt ((nth j xs 0 - nth i xs 0) ^ 2 + (nth j ys 0 - nth i ys 0) ^ 2) / v)%R.
Proof.
  intros Hl Hi Hj. unfold at2, time_matrix_sample.
  assert (Hc : length (combine xs ys) = length xs)
    by (rewrite length_combine; lia).
  rewrite (nth_map_lt _ _ i _ (0%R, 0%R)) by lia.
  rewrite combine_nth by exact Hl. cbn beta iota.
  rewrite (nth_map_lt _ _ j _ (0%R, 0%R)) by lia.
  rewrite combine_nth by exact Hl. reflexivity.
Qed.

Lemma generate_time_matrix_nth (v : R) (locs : list (list (list R))) (b : nat)
  (loc : list (list R)) :
  nth_error locs b = Some loc ->
  nth b (generate_time_matrix v locs) [] = time_matrix_sample v (nth 0 loc []) (nth 1 loc []).
Proof.
  intros H. apply nth_error_nth. unfold generate_time_matrix.
  rewrite nth_error_map, H. reflexivity.
Qed.

Lemma dist_euc_entry (xi yi xj yj : R) :
  sqrt ((xj - xi) ^ 2 + (yj - yi) ^ 2) = dist_euc xj yj xi yi.
Proof. unfold dist_euc, Rsqr. f_equal. ring. Qed.

(** X1: for a positive [v_speed], every travel-time matrix built by
    [generate_time_matrix] is symmetric and has a zero diagonal. *)
Theorem generate_time_matrix_sym_diag (v : R) (locs : list (list (list R)))
  (b : nat) (loc : list (list R)) (i j : nat)
  (Hv : (0 < v)%R) (Hb : nth_error locs b = Some loc)
  (Hl : length (nth 0 loc []) = length (nth 1 loc []))
  (Hi : (i < length (nth 0 loc []))%nat) (Hj : (j < length (nth 0 loc []))%nat) :
  at2 (nth b (generate_time_matrix v locs) []) i j
    = at2 (nth b (generate_time_matrix v locs) []) j i /\
  at2 (nth b (generate_time_matrix v locs) []) i i = 0%R.
Proof.
  rewrite (generate_time_matrix_nth v locs b loc Hb).
  rewrite !time_matrix_entry by assumption. split.
  - f_equal. f_equal. ring.
  - replace ((nth i (nth 0 loc []) 0 - nth i (nth 0 loc []) 0) ^ 2
             + (nth i (nth 1 loc []) 0 - nth i (nth 1 loc []) 0) ^ 2)%R
      with 0%R by ring.
    rewrite sqrt_0. unfold Rdiv. ring.
Qed.

Lemma generate_time_matrix_sym_diag_witness :
  at2 (nth 0 (generate_time_matrix 2 [[[0; 3]; [0; 4]]]%R) []) 0 1
    = at2 (nth 0 (generate_time_matrix 2 [[[0; 3]; [0; 4]]]%R) []) 1 0 /\
  at2 (nth 0 (generate_time_matrix 2 [[[0; 3]; [0; 4]]]%R) []) 0 0 = 0%R.
Proof.
  apply (generate_time_matrix_sym_diag 2 [[[0; 3]; [0; 4]]]%R 0 [[0; 3]; [0; 4]]%R 0 1);
    [lra | reflexivity | reflexivity | cbn; lia | cbn; lia].
Defined.

(** X2: for a positive [v_speed], the travel times of
    [generate_time_matrix] are non-negative and satisfy the triangle
    inequality: going from [i] to [j] directly never takes longer than
    going through a third node [k]. *)
Theorem generate_time_matrix_metric (v : R) (locs : list (list (list R)))
  (b : nat) (loc : list (list R)) (i j k : nat)
  (Hv : (0 < v)%R) (Hb : nth_error locs b = Some loc)
  (Hl : length (nth 0 loc []) = length (nth 1 loc []))
  (Hi : (i < length (nth 0 loc []))%nat) (Hj : (j < length (nth 0 loc []))%nat)
  (Hk : (k < length (nth 0 loc []))%nat) :
  (0 <= at2 (nth b (generate_time_matrix v locs) []) i j)%R /\
  (at2 (nth b (generate_time_matrix v locs) []) i j
   <= at2 (nth b (generate_time_matrix v locs) []) i k
      + at2 (nth b (generate_time_matrix v locs) []) k j)%R.
Proof.
  rewrite (generate_time_matrix_nth v locs b loc Hb).
  rewrite !time_matrix_entry by assumption.
  rewrite !dist_euc_entry. unfold Rdiv.
  assert (Hinv : (0 <= / v)%R) by (left; apply Rinv_0_lt_compat; exact Hv).
  split.
  - apply Rmult_le_pos; [apply sqrt_pos | exact Hinv].
  - rewrite <- Rmult_plus_distr_r. apply Rmult_le_compat_r; [exact Hinv|].
    rewrite Rplus_comm. apply triangle.
Qed.

Lemma generate_time_matrix_metric_witness :
  (0 <= at2 (nth 0 (generate_time_matrix 2 [[[0; 3; 1]; [0; 4; 1]]]%R) []) 0 1)%R /\
  (at2 (nth 0 (generate_time_matrix 2 [[[0; 3; 1]; [0; 4; 1]]]%R) []) 0 1
   <= at2 (nth 0 (generate_time_matrix 2 [[[0; 3; 1]; [0; 4; 1]]]%R) []) 0 2
      + at2 (nth 0 (generate_time_matrix 2 [[[0; 3; 1]; [0; 4; 1]]]%R) []) 2 1)%R.
Proof.
  apply (generate_time_matrix_metric 2 [[[0; 3; 1]; [0; 4; 1]]]%R 0
           [[0; 3; 1]; [0; 4; 1]]%R 0 1 2);
    [lra | reflexivity | reflexivity | cbn; lia | cbn; lia | cbn; lia].
Defined.

(** ** The initial state of [__init__] *)

Lemma Qdiv_Z_le (a b c : Z) :
  (0 < c)%Z -> (a <= b)%Z -> inject_Z a / inject_Z c <= inject_Z b / inject_Z c.
Proof.
  intros Hc Hab. unfold Qdiv. apply Qmult_le_compat_r.
  - rewrite <- Zle_Qle. exact Hab.
  - apply Qinv_le_0_compat. change 0 with (inject_Z 0). rewrite <- Zle_Qle. lia.
Qed.

Lemma Qdiv_Z_nonneg (a c : Z) :
  (0 < c)%Z -> (0 <= a)%Z -> 0 <= inject_Z a / inject_Z c.
Proof.
  intros Hc Ha. apply Qle_shift_div_l.
  - change 0 with (inject_Z 0). rewrite <- Zlt_Qlt. exact Hc.
  - rewrite Qmult_0_l. change 0 with (inject_Z 0). rewrite <- Zle_Qle. exact Ha.
Qed.

Lemma Qdiv_Z_pos (a c : Z) :
  (0 < c)%Z -> (0 < a)%Z -> 0 < inject_Z a / inject_Z c.
Proof.
  intros Hc Ha. apply Qlt_shift_div_l.
  - change 0 with (inject_Z 0). rewrite <- Zlt_Qlt. exact Hc.
  - rewrite Qmult_0_l. change 0 with (inject_Z 0). rewrite <- Zlt_Qlt. exact Ha.
Qed.

Lemma Qdiv_Z_le1 (a c : Z) :
  (0 < c)%Z -> (a <= c)%Z -> inject_Z a / inject_Z c <= 1.
Proof.
  intros Hc Ha. apply Qle_shift_div_r.
  - change 0 with (inject_Z 0). rewrite <- Zlt_Qlt. exact Hc.
  - rewrite Qmult_1_l. rewrite <- Zle_Qle. exact Ha.
Qed.

Lemma inject_Z_nonzero (c : Z) : (c <> 0)%Z -> ~ inject_Z c == 0.
Proof.
  intros Hc H. change 0 with (inject_Z 0) in H.
  apply (proj1 (inject_Z_injective c 0)) in H. lia.
Qed.

(** X3: from demand draws in [1, max_demand] (the range of
    [torch.randint(1, max_demand + 1)]) and [max_demand <= max_load] (the
    check of line 27), the initial dynamic state of a sample has every
    load 1 and every vehicle time 0, a depot demand equal to
    [load - 1] (that is, 0), and every customer demand in (0, 1]: no
    customer needs more than a full load. *)
Theorem initial_sample_state (max_load max_demand : Z) (draws : list Z)
  (Hne : draws <> []) (Hmd : (max_demand <= max_load)%Z)
  (Hr : Forall (fun r => (1 <= r <= max_demand)%Z) draws) :
  exists s, initial_sample max_load draws = Ok s /\
    length (loads s) = length draws /\ length (demands s) = length draws /\
    length (vtime s) = length draws /\
    Forall (fun l => l = 1) (loads s) /\ Forall (fun t => t = 0) (vtime s) /\
    nth 0 (demands s) 0 == nth 0 (loads s) 0 - 1 /\
    Forall (fun d => 0 < d /\ d <= 1) (tl (demands s)).
Proof.
  destruct draws as [|r0 rs]; [contradiction|].
  exists (mk_sample (map (fun _ => 1) (r0 :: rs))
            (0 :: map (fun r => inject_Z r / inject_Z max_load) rs)
            (map (fun _ => 0) (r0 :: rs))).
  split; [reflexivity|]. cbn [loads demands vtime tl nth].
  split; [apply length_map|]. split; [cbn; rewrite length_map; reflexivity|].
  split; [apply length_map|]. split; [|split; [|split; [reflexivity|]]].
  - apply Forall_forall. intros l Hl. apply in_map_iff in Hl as (? & <- & _). reflexivity.
  - apply Forall_forall. intros t Ht. apply in_map_iff in Ht as (? & <- & _). reflexivity.
  - apply Forall_map. inversion_clear Hr as [|? ? _ Hrs].
    eapply Forall_impl; [|exact Hrs]. intros r Hr'. cbn in Hr'. split.
    + apply Qdiv_Z_pos; lia.
    + apply Qdiv_Z_le1; lia.
Qed.

Lemma initial_sample_state_witness :
  exists s, initial_sample 20 [3; 9; 4]%Z = Ok s /\
    length (loads s) = length [3; 9; 4]%Z /\ length (demands s) = length [3; 9; 4]%Z /\
    length (vtime s) = length [3; 9; 4]%Z /\
    Forall (fun l => l = 1) (loads s) /\ Forall (fun t => t = 0) (vtime s) /\
    nth 0 (demands s) 0 == nth 0 (loads s) 0 - 1 /\
    Forall (fun d => 0 < d /\ d <= 1) (tl (demands s)).
Proof.
  apply (initial_sample_state 20 9 [3; 9; 4]%Z);
    [discriminate | lia | repeat constructor; lia].
Defined.

(** X4: with the default [TW_from = 0], a positive [TW_to],
    [0 <= min_TW] and draws in the ranges of lines 57-58, the normalised
    time windows of a sample all lie in [0, 1] with start <= end, and
    the depot window is exactly [0, 1]. *)
Theorem time_windows_unit (TW_to min_TW max_TW : Z) (starts spans : list Z)
  (Hto : (0 < TW_to)%Z) (Hmin : (0 <= min_TW)%Z)
  (Hlen : length starts = length spans) (Hne : starts <> [])
  (Hs : Forall (fun s => (0 <= s <= TW_to - max_TW)%Z) starts)
  (Hsp : Forall (fun sp => (min_TW <= sp <= max_TW)%Z) spans) :
  exists st en, time_windows 0 TW_to starts spans = Ok (st, en) /\
    length st = length starts /\ length en = length starts /\
    nth 0 st 0 == 0 /\ nth 0 en 0 == 1 /\
    (forall j, (j < length starts)%nat ->
       0 <= nth j st 0 /\ nth j st 0 <= nth j en 0 /\ nth j en 0 <= 1).
Proof.
  destruct starts as [|s0 ss]; [contradiction|].
  destruct spans as [|p0 ps]; [discriminate|].
  cbn in Hlen. injection Hlen as Hlen.
  unfold time_windows, py_div.
  destruct (TW_to =? 0)%Z eqn:E0; [apply Z.eqb_eq in E0; lia|].
  cbn [bind map zip_with set_nth].
  do 2 eexists. split; [reflexivity|].
  rewrite Z.sub_0_r.
  assert (Hz : ~ inject_Z TW_to == 0) by (apply inject_Z_nonzero; lia).
  split; [cbn; rewrite length_map; reflexivity|].
  split; [cbn; rewrite zip_with_length; [reflexivity | exact Hlen]|].
  split; [cbn; field; exact Hz|].
  split; [cbn; field; exact Hz|].
  intros [|j] Hj.
  - cbn [nth].
    assert (Hst0 : inject_Z 0 / inject_Z TW_to - inject_Z 0 == 0) by (field; exact Hz).
    assert (Hen0 : inject_Z TW_to / inject_Z TW_to - inject_Z 0 == 1) by (field; exact Hz).
    rewrite Hst0, Hen0. repeat split; discriminate.
  - cbn [length] in Hj. cbn [nth].
    assert (Hj' : (j < length ss)%nat) by lia.
    rewrite (nth_map_lt _ _ j _ 0%Z) by exact Hj'.
    rewrite (nth_zip_with _ _ _ j _ 0%Z 0%Z) by lia.
    rewrite Forall_forall in Hs, Hsp.
    assert (H1 := Hs (nth j ss 0%Z) (or_intror (@nth_In _ j ss 0%Z Hj'))).
    assert (H2 := Hsp (nth j ps 0%Z) (or_intror (@nth_In _ j ps 0%Z ltac:(lia)))).
    repeat split.
    + apply Qdiv_Z_nonneg; lia.
    + apply Qdiv_Z_le; lia.
    + apply Qdiv_Z_le1; lia.
Qed.

Lemma time_windows_unit_witness :
  exists st en, time_windows 0 100 [0; 10; 60]%Z [0; 30; 20]%Z = Ok (st, en) /\
    length st = length [0; 10; 60]%Z /\ length en = length [0; 10; 60]%Z /\
    nth 0 st 0 == 0 /\ nth 0 en 0 == 1 /\
    (forall j, (j < length [0; 10; 60]%Z)%nat ->
       0 <= nth j st 0 /\ nth j st 0 <= nth j en 0 /\ nth j en 0 <= 1).
Proof.
  apply (time_windows_unit 100 0 30 [0; 10; 60]%Z [0; 30; 20]%Z);
    [lia | lia | reflexivity | discriminate | repeat constructor; lia
    | repeat constructor; lia].
Defined.

(** ** __init__: when construction succeeds *)

(** X5: dataset construction succeeds exactly when the three checked
    constraints hold and, besides, a given [seed] lies in [[0, 2^32 - 1]]
    (else [np.random.seed] raises), the time horizon is non-empty
    ([TW_from < TW_to], else [ServiceTime/(TW_to-TW_from)] divides by 0),
    the longest window fits after the earliest start
    ([TW_from + max_TW <= TW_to], else the start-window draw has an empty
    range), [TW_to <> 0] (line 61 divides by it), there is at least one
    node and one sample, and [max_demand >= 1]. *)
Theorem VRPTWDataset_init_ok_iff (p : params) :
  VRPTWDataset_init p = Ok tt <->
  (max_demand p <= max_load p /\ min_TW p <= max_TW p /\ TW_from p < TW_to p /\
   TW_from p + max_TW p <= TW_to p /\ TW_to p <> 0 /\ 0 <= input_size p /\
   0 < num_samples p /\ 1 <= max_demand p)%Z /\
  (forall s, seed p = Some s -> (0 <= s <= 2 ^ 32 - 1)%Z).
Proof.
  unfold VRPTWDataset_init, validate, seed_rng, generate, py_div, torch_randint,
    torch_size.
  destruct (seed p) as [s|].
  - cbn [forallb andb bind].
    repeat (match goal with
            | |- context [(?a <? ?b)%Z] => destruct (Z.ltb_spec a b)
            | |- context [(?a <=? ?b)%Z] => destruct (Z.leb_spec a b)
            | |- context [(?a =? ?b)%Z] => destruct (Z.eqb_spec a b)
            end; cbn [andb bind]).
    all: split; intros Hc;
      [ first [ discriminate
              | split; [repeat split; nia | intros s' Hs'; injection Hs' as <-; lia] ]
      | try reflexivity; exfalso;
        destruct Hc as ((? & ? & ? & ? & ? & ? & ? & ?) & Hs);
        specialize (Hs s eq_refl); nia ].
  - cbn [forallb andb bind].
    repeat (match goal with
            | |- context [(?a <? ?b)%Z] => destruct (Z.ltb_spec a b)
            | |- context [(?a <=? ?b)%Z] => destruct (Z.leb_spec a b)
            | |- context [(?a =? ?b)%Z] => destruct (Z.eqb_spec a b)
            end; cbn [andb bind]).
    all: split; intros Hc;
      [ first [ discriminate
              | split; [repeat split; nia | intros s' Hs'; discriminate] ]
      | try reflexivity; exfalso;
        destruct Hc as ((? & ? & ? & ? & ? & ? & ? & ?) & _); nia ].
Qed.

(** ** update_mask: which customers are legal *)

Lemma set_nth_0_tail {A : Type} (l l' : list A) (v : A) (j : nat) :
  set_nth l 0 v = Ok l' -> nth_error l' (S j) = nth_error l (S j).
Proof. destruct l; cbn; intros H; [discriminate|]. injection H as <-. reflexivity. Qed.

Lemma nth_error_zip_with {A B C : Type} (f : A -> B -> C) (l1 : list A) (l2 : list B)
  (n : nat) (z : C) :
  nth_error (zip_with f l1 l2) n = Some z ->
  exists x y, nth_error l1 n = Some x /\ nth_error l2 n = Some y /\ z = f x y.
Proof.
  revert l2 n. induction l1 as [|x l1 IH]; intros [|y l2] n H; cbn in H;
    try (destruct n; discriminate).
  destruct n as [|n]; cbn in H |- *.
  - injection H as <-. eauto.
  - apply IH. exact H.
Qed.

Lemma nth_error_map_false {A : Type} (l : list A) (n : nat) :
  nth_error (map (fun _ => false) l) n <> Some true.
Proof.
  rewrite nth_error_map. destruct (nth_error l n); cbn; congruence.
Qed.

(** X6: [update_mask] marks customer [j] (a node other than the depot) of
    a sample as legal only if its demand is nonzero and strictly below
    the sample's load at [j].  So a customer whose demand equals or
    exceeds the load is never offered. *)
Theorem update_mask_customer_legal (dyn : list sample) (chosen_idx : list nat)
  (M : list (list bool)) (b j : nat) (s : sample) (row : list bool)
  (Hrun : update_mask dyn chosen_idx = Ok M) (Hs : nth_error dyn b = Some s)
  (Hrow : nth_error M b = Some row) (Hj : nth_error row (S j) = Some true) :
  exists d l, nth_error (demands s) (S j) = Some d /\
    nth_error (loads s) (S j) = Some l /\ ~ d == 0 /\ d < l.
Proof.
  destruct (batch_all_served dyn) eqn:Hall.
  - rewrite (update_mask_early _ _ _ _ _ Hrun Hs Hall) in Hrow.
    injection Hrow as <-. exfalso. exact (nth_error_map_false _ _ Hj).
  - destruct (update_mask_row _ _ _ _ _ Hrun Hs Hall) as (row' & Hmr & Hrow').
    rewrite Hrow' in Hrow. injection Hrow as <-.
    unfold mask_row in Hmr.
    set (z := zip_with _ (demands s) (loads s)) in Hmr.
    assert (Hz : nth_error z (S j) = Some true).
    { destruct (nth_error chosen_idx b) as [c|]; cbn [bind] in Hmr.
      - destruct (set_nth z 0 (negb (c =? 0))) as [r1|e] eqn:E; cbn [bind] in Hmr;
          [|discriminate].
        rewrite <- (set_nth_0_tail _ _ _ j E).
        destruct (depot_override s) as [[|]|e]; cbn [bind] in Hmr; try discriminate;
          injection Hmr as <-.
        + exfalso. exact (nth_error_map_false _ _ Hj).
        + exact Hj.
      - destruct (depot_override s) as [[|]|e]; cbn [bind] in Hmr; try discriminate;
          injection Hmr as <-.
        + exfalso. exact (nth_error_map_false _ _ Hj).
        + exact Hj. }
    destruct (nth_error_zip_with _ _ _ _ _ Hz) as (d & l & Hd & Hl & Hf).
    exists d, l. split; [exact Hd|]. split; [exact Hl|].
    symmetry in Hf. apply andb_true_iff in Hf as [Hd0 Hlt].
    split.
    + intros Heq. apply Qeq_bool_iff in Heq. rewrite Heq in Hd0. discriminate.
    + unfold Qlt_bool in Hlt. apply Qnot_le_lt. intros Hle.
      apply Qle_bool_iff in Hle. rewrite Hle in Hlt. discriminate.
Qed.

Lemma update_mask_customer_legal_witness :
  exists d l, nth_error (demands (mk_sample [1; 1; 1] [0; 1#2; 0] [0; 0; 0])) 1 = Some d /\
    nth_error (loads (mk_sample [1; 1; 1] [0; 1#2; 0] [0; 0; 0])) 1 = Some l /\
    ~ d == 0 /\ d < l.
Proof.
  apply (update_mask_customer_legal [mk_sample [1; 1; 1] [0; 1#2; 0] [0; 0; 0]]
           [0%nat] [[false; true; false]] 0 0
           (mk_sample [1; 1; 1] [0; 1#2; 0] [0; 0; 0]) [false; true; false]);
    reflexivity.
Defined.

(** ** update_dynamic: the depot branch *)

Lemma update_row_0 (x : list Q) (m : list (list Q)) (f : list Q -> result (list Q)) :
  update_row (x :: m) 0 f = let* x' := f x in Ok (x' :: m).
Proof. unfold update_row. cbn. destruct (f x); reflexivity. Qed.

Lemma update_row_cons (x : list Q) (m : list (list Q)) (i : nat)
  (f : list Q -> result (list Q)) :
  update_row (x :: m) (S i) f = let* m' := update_row m i f in Ok (x :: m').
Proof.
  unfold update_row, nth_err. cbn.
  destruct (nth_error m i) as [r|]; cbn; [|reflexivity].
  destruct (f r); reflexivity.
Qed.

Lemma foldM_shift (F : dyn_arrays -> nat -> result dyn_arrays)
  (HS : forall x y z al ad av i,
      F (x :: al, y :: ad, z :: av) (S i)
      = let* st := F (al, ad, av) i in
        let '(a, b, c) := st in Ok (x :: a, y :: b, z :: c))
  (l : list nat) :
  forall x y z al ad av,
  foldM F (x :: al, y :: ad, z :: av) (map S l)
  = let* st := foldM F (al, ad, av) l in
    let '(a, b, c) := st in Ok (x :: a, y :: b, z :: c).
Proof.
  induction l as [|i l IH]; intros x y z al ad av; [reflexivity|].
  cbn [map foldM]. rewrite HS.
  destruct (F (al, ad, av) i) as [[[a b] c]|e]; cbn [bind]; [|reflexivity].
  apply IH.
Qed.

Lemma foldM_rows (F : dyn_arrays -> nat -> result dyn_arrays)
  (hx hy hz : list Q -> list Q)
  (H0 : forall x y z al ad av, y <> [] ->
      F (x :: al, y :: ad, z :: av) 0%nat = Ok (hx x :: al, hy y :: ad, hz z :: av))
  (HS : forall x y z al ad av i,
      F (x :: al, y :: ad, z :: av) (S i)
      = let* st := F (al, ad, av) i in
        let '(a, b, c) := st in Ok (x :: a, y :: b, z :: c)) :
  forall al ad av, length ad = length al -> length av = length al ->
  Forall (fun r => r <> []) ad ->
  foldM F (al, ad, av) (seq 0 (length al)) = Ok (map hx al, map hy ad, map hz av).
Proof.
  induction al as [|x al IH]; intros [|y ad] [|z av] Hd Hv Hne; cbn in Hd, Hv;
    try discriminate; [reflexivity|].
  inversion_clear Hne as [|? ? Hy Hads].
  cbn [length seq foldM]. rewrite (H0 _ _ _ _ _ _ Hy). cbn [bind].
  rewrite <- seq_shift, (foldM_shift F HS).
  rewrite IH by (auto; lia). reflexivity.
Qed.

Lemma filter_id_in {A : Type} (f : A -> bool) (l : list A) :
  (forall x, In x l -> f x = true) -> filter f l = l.
Proof.
  induction l as [|x l IH]; intros H; [reflexivity|].
  cbn. rewrite (H x (or_introl eq_refl)). f_equal. apply IH.
  intros y Hy. apply H. right. exact Hy.
Qed.

Lemma forallb_zero_nth (chosen : list nat) (i : nat) :
  forallb (fun c => c =? 0) chosen = true -> nth i chosen O = O.
Proof.
  revert i. induction chosen as [|c l IH]; intros i H; [destruct i; reflexivity|].
  cbn in H. apply andb_true_iff in H as [Hc Hl].
  destruct i as [|i]; cbn; [apply Nat.eqb_eq; exact Hc | apply IH; exact Hl].
Qed.

Lemma depot_update_all (chosen : list nat) (al ad av : list (list Q)) :
  forallb (fun c => c =? 0) chosen = true ->
  length al = length chosen -> length ad = length chosen -> length av = length chosen ->
  Forall (fun r => r <> []) ad ->
  depot_update chosen (al, ad, av)
  = Ok (map (map (fun _ => 1)) al, map (fun r => 0 :: tl r) ad, map (map (fun _ => 0)) av).
Proof.
  intros Hz Hl Hd Hv Hne. unfold depot_update.
  rewrite filter_id_in
    by (intros i _; apply Nat.eqb_eq; apply forallb_zero_nth; exact Hz).
  rewrite <- Hl. apply foldM_rows; try lia; try exact Hne.
  - intros x y z al' ad' av' Hy. destruct y as [|y0 y]; [contradiction|].
    cbv beta iota. rewrite !update_row_0. reflexivity.
  - intros x y z al' ad' av' i. cbv beta iota. rewrite !update_row_cons.
    destruct (update_row al' i _) as [a|e]; cbn [bind]; [|reflexivity].
    destruct (update_row ad' i _) as [b|e]; cbn [bind]; [|reflexivity].
    destruct (update_row av' i _) as [c|e]; cbn [bind]; reflexivity.
Qed.

Lemma gather_first (t : list (list Q)) (idx : list nat) :
  length idx = length t -> forallb (fun c => c =? 0) idx = true ->
  Forall (fun r => r <> []) t -> exists v, gather t idx = Ok v.
Proof.
  intros Hl Hz Hne. unfold gather. rewrite Hl, Nat.ltb_irrefl.
  revert idx Hl Hz. induction Hne as [|r t Hr _ IH]; intros [|c idx] Hl Hz;
    cbn in Hl; try discriminate.
  - exists []. reflexivity.
  - cbn in Hz. apply andb_true_iff in Hz as [Hc Hz]. apply Nat.eqb_eq in Hc. subst c.
    destruct r as [|x r]; [contradiction|]. cbn [combine mapM nth_error].
    destruct (IH idx ltac:(lia) Hz) as [v Hv]. rewrite Hv. cbn. eauto.
Qed.

Lemma rebuild_map (dyn : list sample) :
  rebuild (map loads dyn) (map demands dyn) (map vtime dyn) = dyn.
Proof.
  induction dyn as [|[l d v] dyn IH]; [reflexivity|]. cbn. rewrite IH. reflexivity.
Qed.

Lemma update_dynamic_depot_batch_ok (static_start : list (list Q)) (servicetime : Q)
  (dyn : list sample) (chosen_idx pre_chosen_idx : list nat)
  (time_matrix : list (list (list Q)))
  (Hlen : length chosen_idx = length dyn)
  (Hdepot : forallb (fun c => c =? 0) chosen_idx = true)
  (Hne : Forall (fun s => loads s <> [] /\ demands s <> [] /\ vtime s <> []) dyn) :
  update_dynamic static_start servicetime dyn chosen_idx pre_chosen_idx time_matrix
  = Ok (map (fun s => mk_sample (map (fun _ => 1) (loads s)) (0 :: tl (demands s))
                                (map (fun _ => 0) (vtime s))) dyn).
Proof.
  assert (Hfl : forall (f : sample -> list Q), (forall s, In s dyn -> f s <> []) ->
            Forall (fun r => r <> []) (map f dyn)).
  { intros f Hf. apply Forall_map. apply Forall_forall. exact Hf. }
  rewrite Forall_forall in Hne.
  assert (Hl : Forall (fun r => r <> []) (map loads dyn))
    by (apply Hfl; intros s Hs; apply (Hne s Hs)).
  assert (Hd : Forall (fun r => r <> []) (map demands dyn))
    by (apply Hfl; intros s Hs; apply (Hne s Hs)).
  assert (Hv : Forall (fun r => r <> []) (map vtime dyn))
    by (apply Hfl; intros s Hs; apply (Hne s Hs)).
  unfold update_dynamic.
  destruct (gather_first (map loads dyn) chosen_idx) as [load Hg1];
    [rewrite length_map; exact Hlen | exact Hdepot | exact Hl |].
  destruct (gather_first (map demands dyn) chosen_idx) as [demand Hg2];
    [rewrite length_map; exact Hlen | exact Hdepot | exact Hd |].
  destruct (gather_first (map vtime dyn) chosen_idx) as [vt Hg3];
    [rewrite length_map; exact Hlen | exact Hdepot | exact Hv |].
  rewrite Hg1, Hg2, Hg3. cbn [bind].
  assert (Hnv : existsb (fun c => negb (c =? 0)) chosen_idx = false).
  { clear -Hdepot. induction chosen_idx as [|c l IH]; [reflexivity|].
    cbn in *. apply andb_true_iff in Hdepot as [Hc Hl]. rewrite Hc. cbn. auto. }
  rewrite existsb_visit, Hnv. cbn [bind].
  destruct chosen_idx as [|c l] eqn:Ec.
  - destruct dyn; [reflexivity|discriminate].
  - rewrite <- Ec in *.
    assert (Hd0 : existsb (fun b => b) (map (fun c => c =? 0) chosen_idx) = true).
    { rewrite Ec in Hdepot |- *. cbn in Hdepot |- *.
      apply andb_true_iff in Hdepot as [Hc _]. rewrite Hc. reflexivity. }
    rewrite Hd0.
    rewrite depot_update_all by (rewrite ?length_map; auto).
    cbn [bind]. f_equal. clear. induction dyn as [|s dyn IH]; [reflexivity|].
    cbn. rewrite IH. reflexivity.
Qed.

(** X7: when every sample of the batch goes to the depot
    ([chosen_idx] all 0, one per sample, non-empty rows), [update_dynamic]
    succeeds and refills every vehicle (all loads 1), resets every vehicle
    time to 0 and sets each depot demand to 0, leaving the customer
    demands untouched.  Afterwards [demand[0] = load - 1] holds again. *)
Theorem update_dynamic_depot_batch (static_start : list (list Q)) (servicetime : Q)
  (dyn : list sample) (chosen_idx pre_chosen_idx : list nat)
  (time_matrix : list (list (list Q)))
  (Hlen : length chosen_idx = length dyn)
  (Hdepot : forallb (fun c => c =? 0) chosen_idx = true)
  (Hne : Forall (fun s => loads s <> [] /\ demands s <> [] /\ vtime s <> []) dyn) :
  update_dynamic static_start servicetime dyn chosen_idx pre_chosen_idx time_matrix
  = Ok (map (fun s => mk_sample (map (fun _ => 1) (loads s)) (0 :: tl (demands s))
                                (map (fun _ => 0) (vtime s))) dyn).
Proof.
  exact (update_dynamic_depot_batch_ok static_start servicetime dyn chosen_idx
           pre_chosen_idx time_matrix Hlen Hdepot Hne).
Qed.

Lemma update_dynamic_depot_batch_witness :
  update_dynamic [[0; 0; 0]] 0
    [mk_sample [1#2; 1#2; 1#2] [-1#2; 0; 1#4] [1#4; 1#4; 1#4]] [0%nat] [2%nat]
    [[[0; 1; 1]; [1; 0; 1]; [1; 1; 0]]]
  = Ok (map (fun s => mk_sample (map (fun _ => 1) (loads s)) (0 :: tl (demands s))
                                (map (fun _ => 0) (vtime s)))
          [mk_sample [1#2; 1#2; 1#2] [-1#2; 0; 1#4] [1#4; 1#4; 1#4]]).
Proof.
  apply update_dynamic_depot_batch;
    [reflexivity | reflexivity | repeat constructor; discriminate].
Defined.

(** X8: with an empty [chosen_idx], [update_dynamic] returns the dynamic
    state unchanged, whatever the batch. *)
Theorem update_dynamic_no_choice (static_start : list (list Q)) (servicetime : Q)
  (dyn : list sample) (pre_chosen_idx : list nat) (time_matrix : list (list (list Q))) :
  update_dynamic static_start servicetime dyn [] pre_chosen_idx time_matrix = Ok dyn.
Proof.
  unfold update_dynamic, gather. cbn [length].
  rewrite !combine_nil. cbn [Nat.ltb Nat.leb mapM bind existsb map].
  rewrite rebuild_map. reflexivity.
Qed.

(** ** reward: sign and symmetry *)

Lemma mapM_Forall {A B : Type} (f : A -> result B) (P : B -> Prop) (l : list A) (ys : list B) :
  (forall x y, f x = Ok y -> P y) -> mapM f l = Ok ys -> Forall P ys.
Proof.
  intros Hf. revert ys. induction l as [|x l IH]; intros ys H; cbn in H.
  - injection H as <-. constructor.
  - destruct (f x) as [y|e] eqn:E; cbn in H; [|discriminate].
    destruct (mapM f l) as [ys'|e]; cbn in H; [|discriminate].
    injection H as <-. constructor; [exact (Hf x y E) | apply IH; reflexivity].
Qed.

Lemma segments_nonneg (l1 l2 : list (list R)) :
  (0 <= fold_right Rplus 0 (zip_with (fun p q => sqrt (sq_dist p q)) l1 l2))%R.
Proof.
  revert l2. induction l1 as [|p l1 IH]; intros [|q l2]; cbn; try lra.
  apply Rplus_le_le_0_compat; [apply sqrt_pos | apply IH].
Qed.

(** X9: every tour cost returned by [reward] is non-negative. *)
Theorem reward_nonneg (static : list (list (list R))) (tour_indices : list (list nat))
  (rs : list R) (Hrun : reward static tour_indices = Ok rs) :
  Forall (fun r => (0 <= r)%R) rs.
Proof.
  unfold reward in Hrun.
  destruct (negb (length static =? length tour_indices)); [discriminate|].
  apply (mapM_Forall _ (fun r => (0 <= r)%R)) in Hrun; [exact Hrun|].
  intros [s t] r Hr. unfold reward_sample in Hr.
  destruct (mapM (point s) t) as [ts|e]; cbn [bind] in Hr; [|discriminate].
  destruct (point s 0) as [st|e]; cbn [bind] in Hr; [|discriminate].
  injection Hr as <-. apply segments_nonneg.
Qed.

Lemma reward_nonneg_witness :
  exists rs, reward [[[0; 1; 1]; [0; 0; 1]]]%R [[1; 2]%nat] = Ok rs /\
    Forall (fun r => (0 <= r)%R) rs.
Proof.
  eexists. split; [reflexivity|].
  apply (reward_nonneg [[[0; 1; 1]; [0; 0; 1]]]%R [[1; 2]%nat]). reflexivity.
Defined.

Lemma segments_consec {A : Type} (g : A -> A -> R) (l : list A) :
  fold_right Rplus 0%R (zip_with g (removelast l) (tl l)) = consec_sum g l.
Proof.
  destruct l as [|a l]; [reflexivity|].
  revert a. induction l as [|b l IH]; intros a; [reflexivity|].
  specialize (IH b). cbn [tl] in IH |- *.
  change (removelast (a :: b :: l)) with (a :: removelast (b :: l)).
  cbn [zip_with fold_right consec_sum]. rewrite IH. reflexivity.
Qed.

Lemma consec_sum_snoc {A : Type} (g : A -> A -> R) (m : list A) (a : A) :
  consec_sum g (m ++ [a])
  = (consec_sum g m + match m with [] => 0 | _ => g (last m a) a end)%R.
Proof.
  induction m as [|b m IH]; cbn [app]; [cbn; ring|].
  destruct m as [|c m].
  - cbn. ring.
  - change (consec_sum g (b :: ((c :: m) ++ [a])))
      with (g b c + consec_sum g ((c :: m) ++ [a]))%R.
    rewrite IH.
    change (consec_sum g (b :: c :: m)) with (g b c + consec_sum g (c :: m))%R.
    change (last (b :: c :: m) a) with (last (c :: m) a). ring.
Qed.

Lemma consec_sum_rev {A : Type} (g : A -> A -> R) (l : list A) :
  consec_sum g (rev l) = consec_sum (fun p q => g q p) l.
Proof.
  induction l as [|a l IH]; [reflexivity|].
  cbn [rev]. rewrite consec_sum_snoc, IH.
  destruct l as [|b l]; [cbn; ring|].
  cbn [rev]. rewrite last_last.
  destruct (rev l ++ [b]) eqn:E; [destruct (rev l); discriminate|].
  cbn [consec_sum]. ring.
Qed.

Lemma consec_sum_ext {A : Type} (g h : A -> A -> R) (l : list A) :
  (forall a b, g a b = h a b) -> consec_sum g l = consec_sum h l.
Proof.
  intros H. induction l as [|a l IH]; [reflexivity|].
  destruct l as [|b l]; [reflexivity|]. cbn [consec_sum] in *. rewrite H, IH. reflexivity.
Qed.

Lemma sq_dist_comm (p q : list R) : sq_dist p q = sq_dist q p.
Proof.
  revert q. induction p as [|a p IH]; intros [|b q]; try reflexivity.
  change (((a - b) ^ 2 + sq_dist p q) = ((b - a) ^ 2 + sq_dist q p))%R.
  rewrite IH. ring.
Qed.

Lemma mapM_app {A B : Type} (f : A -> result B) (l1 l2 : list A) :
  mapM f (l1 ++ l2) = let* a := mapM f l1 in let* b := mapM f l2 in Ok (a ++ b).
Proof.
  induction l1 as [|x l1 IH]; cbn [app mapM].
  - cbn. destruct (mapM f l2); reflexivity.
  - rewrite IH. destruct (f x); cbn; [|reflexivity].
    destruct (mapM f l1); cbn; [|reflexivity].
    destruct (mapM f l2); reflexivity.
Qed.

Lemma mapM_rev_ok {A B : Type} (f : A -> result B) (l : list A) (ys : list B) :
  mapM f l = Ok ys -> mapM f (rev l) = Ok (rev ys).
Proof.
  revert ys. induction l as [|x l IH]; intros ys H; cbn in H.
  - injection H as <-. reflexivity.
  - destruct (f x) as [y|e] eqn:E; cbn in H; [|discriminate].
    destruct (mapM f l) as [ys'|e]; cbn in H; [|discriminate].
    injection H as <-. cbn [rev]. rewrite mapM_app, (IH ys' eq_refl).
    cbn. rewrite E. reflexivity.
Qed.

Lemma mapM_point_rev (static : list (list R)) (l : list nat) :
  mapM (point static) (rev l)
  = match mapM (point static) l with Ok ys => Ok (rev ys) | Err e => Err e end.
Proof.
  destruct (mapM (point static) l) as [ys|e] eqn:E.
  - exact (mapM_rev_ok _ _ _ E).
  - destruct (mapM (point static) (rev l)) as [ys'|e'] eqn:E'.
    + apply mapM_rev_ok in E'. rewrite rev_involutive in E'. congruence.
    + rewrite (mapM_point_err _ _ _ E), (mapM_point_err _ _ _ E'). reflexivity.
Qed.

Lemma reward_sample_rev_eq (static : list (list R)) (tour : list nat) :
  reward_sample static (rev tour) = reward_sample static tour.
Proof.
  unfold reward_sample. rewrite mapM_point_rev.
  destruct (mapM (point static) tour) as [ts|e]; cbn [bind]; [|reflexivity].
  destruct (point static 0) as [s|e]; cbn [bind]; [|reflexivity].
  f_equal. rewrite !segments_consec.
  replace (s :: rev ts ++ [s]) with (rev (s :: ts ++ [s]))
    by (cbn [rev]; rewrite rev_app_distr; reflexivity).
  rewrite consec_sum_rev. apply consec_sum_ext.
  intros p q. rewrite sq_dist_comm. reflexivity.
Qed.

(** X10: the cost [reward] gives a tour does not depend on its direction:
    reversing the tour gives the same result (the same cost, or the same
    error), and so does ending the tour with an explicit return to the
    depot (node 0). *)
Theorem reward_sample_rev (static : list (list R)) (tour : list nat) :
  reward_sample static (rev tour) = reward_sample static tour /\
  reward_sample static (tour ++ [0%nat]) = reward_sample static tour.
Proof.
  split; [apply reward_sample_rev_eq|].
  rewrite <- (reward_sample_rev_eq static (tour ++ [0%nat])).
  rewrite rev_app_distr. cbn [rev app].
  rewrite reward_sample_depot_head. apply reward_sample_rev_eq.
Qed.

(** ** update_mask: shape, and after a depot step *)

Lemma mask_row_length (s : sample) (c : option nat) (row : list bool) :
  length (loads s) = length (demands s) -> mask_row s c = Ok row ->
  length row = length (demands s).
Proof.
  intros Hl H.
  destruct (mask_row_depot_ok s c row H) as [[|] Ho].
  - rewrite (mask_row_override s c row H Hl Ho).
    unfold depot_override, nth_err in Ho.
    destruct (loads s) as [|l0 ls] eqn:El; [discriminate|].
    destruct (demands s) as [|d0 ds]; cbn in Hl |- *; [discriminate|].
    rewrite length_map. reflexivity.
  - unfold mask_row in H. rewrite Ho in H.
    set (z := zip_with _ (demands s) (loads s)) in H.
    assert (Hz : length z = length (demands s)) by (apply zip_with_length; auto).
    destruct c as [c|]; cbn [bind] in H.
    + destruct (set_nth z 0 (negb (c =? 0))) as [r1|e] eqn:E; cbn [bind] in H;
        [|discriminate].
      injection H as <-. rewrite (set_nth_length _ _ _ _ E). exact Hz.
    + injection H as <-. exact Hz.
Qed.

Lemma mask_rows_shape (chosen_idx : list nat) (dyn : list sample) (k : nat)
  (M : list (list bool)) :
  Forall (fun s => length (loads s) = length (demands s)) dyn ->
  mapM (fun '(i, s) => mask_row s (nth_error chosen_idx i))
    (combine (seq k (length dyn)) dyn) = Ok M ->
  Forall2 (fun s row => length row = length (demands s)) dyn M.
Proof.
  intros Hl. revert k M. induction Hl as [|s dyn Hs _ IH]; intros k M H; cbn in H.
  - injection H as <-. constructor.
  - destruct (mask_row s (nth_error chosen_idx k)) as [row|e] eqn:E; cbn in H;
      [|discriminate].
    destruct (mapM _ (combine (seq (S k) (length dyn)) dyn)) as [M'|e] eqn:E';
      cbn in H; [|discriminate].
    injection H as <-. constructor.
    + exact (mask_row_length _ _ _ Hs E).
    + exact (IH (S k) M' E').
Qed.

(** X11: when each sample's load and demand rows have the same length,
    [update_mask] returns one row per sample with one entry per node. *)
Theorem update_mask_shape (dyn : list sample) (chosen_idx : list nat)
  (M : list (list bool)) (Hrun : update_mask dyn chosen_idx = Ok M)
  (Hlen : Forall (fun s => length (loads s) = length (demands s)) dyn) :
  Forall2 (fun s row => length row = length (demands s)) dyn M.
Proof.
  unfold update_mask in Hrun. destruct (batch_all_served dyn).
  - injection Hrun as <-. clear Hlen. induction dyn as [|s dyn IH]; cbn; constructor.
    + apply length_map.
    + exact IH.
  - destruct (length dyn <? length chosen_idx); [discriminate|].
    exact (mask_rows_shape chosen_idx dyn 0 M Hlen Hrun).
Qed.

Lemma update_mask_shape_witness :
  Forall2 (fun s row => length row = length (demands s))
    [mk_sample [1; 1; 1] [0; 1#2; 0] [0; 0; 0]] [[false; true; false]].
Proof.
  apply (update_mask_shape [mk_sample [1; 1; 1] [0; 1#2; 0] [0; 0; 0]] [0%nat]);
    [reflexivity | repeat constructor].
Defined.

(** X12: composing the two steps of a depot visit.  After
    [update_dynamic] has sent every sample of the batch to the depot, the
    next [update_mask] (same [chosen_idx], batch not fully served) allows
    the depot again for a sample exactly when the sample has no customer
    demand left: a vehicle is not sent back and forth to the depot while
    customers still wait. *)
Theorem depot_step_then_mask (static_start : list (list Q)) (servicetime : Q)
  (dyn dyn' : list sample) (chosen_idx pre_chosen_idx : list nat)
  (time_matrix : list (list (list Q))) (M : list (list bool)) (b : nat)
  (s : sample) (row : list bool)
  (Hlen : length chosen_idx = length dyn)
  (Hdepot : forallb (fun c => c =? 0) chosen_idx = true)
  (Hne : Forall (fun s => loads s <> [] /\ demands s <> [] /\ vtime s <> []) dyn)
  (Hstep : update_dynamic static_start servicetime dyn chosen_idx pre_chosen_idx
             time_matrix = Ok dyn')
  (Hserved : batch_all_served dyn' = false)
  (Hmask : update_mask dyn' chosen_idx = Ok M)
  (Hb : nth_error dyn' b = Some s) (Hrow : nth_error M b = Some row) :
  nth_error row 0 = Some (Qeq_bool (Qsum (tl (demands s))) 0).
Proof.
  destruct (update_mask_row _ _ _ _ _ Hmask Hb Hserved) as (row' & Hmr & Hrow').
  rewrite Hrow' in Hrow. injection Hrow as <-.
  rewrite (update_dynamic_depot_batch_ok static_start servicetime dyn chosen_idx
             pre_chosen_idx time_matrix Hlen Hdepot Hne) in Hstep.
  injection Hstep as <-.
  rewrite nth_error_map in Hb.
  destruct (nth_error dyn b) as [s0|] eqn:Hs0; cbn in Hb; [|discriminate].
  injection Hb as <-.
  assert (Hbl : (b < length chosen_idx)%nat)
    by (rewrite Hlen; apply nth_error_Some; rewrite Hs0; discriminate).
  rewrite (nth_error_nth' chosen_idx O Hbl), (forallb_zero_nth _ _ Hdepot) in Hmr.
  rewrite Forall_forall in Hne.
  destruct (Hne s0 (nth_error_In _ _ Hs0)) as (Hl0 & Hd0 & _).
  destruct s0 as [[|l0 ls] [|d0 ds] vt]; cbn in Hl0, Hd0; try contradiction.
  cbn in Hmr |- *.
  destruct (Qeq_bool (fold_right Qplus 0 ds) 0); injection Hmr as <-; reflexivity.
Qed.

Lemma depot_step_then_mask_witness :
  nth_error [true; false; false] 0
  = Some (Qeq_bool (Qsum (tl (demands (mk_sample [1; 1; 1] [0; 0; 0] [0; 0; 0])))) 0).
Proof.
  apply (depot_step_then_mask [[0; 0; 0]] 0
           [mk_sample [1#2; 1#2; 1#2] [-1#2; 0; 0] [1#4; 1#4; 1#4];
            mk_sample [1; 1; 1] [0; 1#2; 0] [0; 0; 0]]
           [mk_sample [1; 1; 1] [0; 0; 0] [0; 0; 0];
            mk_sample [1; 1; 1] [0; 1#2; 0] [0; 0; 0]]
           [0; 0]%nat [1; 2]%nat
           [[[0; 1; 1]; [1; 0; 1]; [1; 1; 0]]; [[0; 1; 1]; [1; 0; 1]; [1; 1; 0]]]
           [[true; false; false]; [false; true; false]] 0
           (mk_sample [1; 1; 1] [0; 0; 0] [0; 0; 0]) [true; false; false]);
    try reflexivity.
  repeat constructor; discriminate.
Defined.
